(** * anyconfig: the XML backend transducers and the path getters

    A shallow embedding of [anyconfig/backend/xml.py] and
    [anyconfig/getset.py].  Python objects become values of an inductive
    type, dicts become insertion-ordered association lists, raised
    exceptions become the left summand of a result type, and the in-place
    updates of ElementTree elements are threaded explicitly. *)

From Stdlib Require Import String Ascii List ZArith Bool Arith Lia.
Import ListNotations.
Local Open Scope string_scope.
Local Open Scope list_scope.
Set Warnings "-register-all".

(* ================================================================== *)
(** * Python values, exceptions and dict operations                    *)
(* ================================================================== *)

Module Py.

(** The Python objects that reach the functions under study. A dict is
    kept as the list of its items in insertion order. *)
Inductive value : Type :=
| VNone
| VBool (b : bool)
| VInt (n : Z)
| VStr (s : string)
| VList (l : list value)
| VDict (d : list (string * value)).

Definition dict := list (string * value).

(** The exception classes the code can meet. *)
Inductive pyexc : Type :=
| TypeError
| KeyError (key : string)
| AttributeError.

Definition result (A : Type) : Type := (pyexc + A)%type.

Definition Return {A} (a : A) : result A := inr a.
Definition Raise {A} (e : pyexc) : result A := inl e.

Definition bind {A B} (m : result A) (k : A -> result B) : result B :=
  match m with
  | inl e => inl e
  | inr a => k a
  end.

(** [try: body except <handles>: handler] *)
Definition try_except {A} (body : result A) (handles : pyexc -> bool)
    (handler : pyexc -> result A) : result A :=
  match body with
  | inl e => if handles e then handler e else inl e
  | inr a => inr a
  end.

Definition is_TypeError (e : pyexc) : bool :=
  match e with TypeError => true | _ => false end.

Definition is_TypeError_or_KeyError (e : pyexc) : bool :=
  match e with TypeError | KeyError _ => true | AttributeError => false end.

(** Truth value of an object, as tested by [if obj:] and [not obj]. *)
Definition truthy (v : value) : bool :=
  match v with
  | VNone => false
  | VBool b => b
  | VInt n => negb (Z.eqb n 0)
  | VStr s => negb (String.eqb s "")
  | VList l => match l with [] => false | _ => true end
  | VDict d => match d with [] => false | _ => true end
  end.

(** [d.get(k)] on the item list. *)
Fixpoint dict_get {A} (d : list (string * A)) (k : string) : option A :=
  match d with
  | [] => None
  | (k', v) :: d' => if String.eqb k' k then Some v else dict_get d' k
  end.

(** [d[k] = v]: an existing key keeps its place, a new key goes last. *)
Fixpoint dict_set {A} (d : list (string * A)) (k : string) (v : A)
    : list (string * A) :=
  match d with
  | [] => [(k, v)]
  | (k', v') :: d' =>
      if String.eqb k' k then (k', v) :: d' else (k', v') :: dict_set d' k v
  end.

Definition keys {A} (d : list (string * A)) : list string := map fst d.

(** [dict(items)] / [OrderedDict(items)]: insert the items one by one. *)
Definition dict_of_items {A} (items : list (string * A)) : list (string * A) :=
  fold_left (fun d kv => dict_set d (fst kv) (snd kv)) items [].

(** [key in obj] for a string [key]: membership of the key for a dict,
    substring test for a str, element test for a list, TypeError for
    objects that are not containers. *)
Definition contains (obj : value) (key : string) : result bool :=
  match obj with
  | VDict d => Return (match dict_get d key with Some _ => true | None => false end)
  | VStr s => Return (match String.index 0 key s with Some _ => true | None => false end)
  | VList l =>
      Return (existsb (fun v => match v with VStr s => String.eqb s key | _ => false end) l)
  | VNone | VBool _ | VInt _ => Raise TypeError
  end.

(** [operator.getitem(obj, key)] for a string [key]. *)
Definition getitem (obj : value) (key : string) : result value :=
  match obj with
  | VDict d =>
      match dict_get d key with
      | Some v => Return v
      | None => Raise (KeyError key)
      end
  | _ => Raise TypeError
  end.

(** [functools.reduce(f, l, init)] with an [f] that may raise. *)
Fixpoint reduce {A B} (f : A -> B -> result A) (l : list B) (init : A)
    : result A :=
  match l with
  | [] => Return init
  | x :: l' => bind (f init x) (fun a => reduce f l' a)
  end.

End Py.

Import Py.

Declare Scope py_scope.
Notation "x <- m ;; k" := (bind m (fun x => k))
  (at level 61, m at next level, right associativity) : py_scope.
Notation "' p <- m ;; k" := (bind m (fun p => k))
  (at level 61, p pattern, m at next level, right associativity) : py_scope.
Local Open Scope py_scope.

(* ================================================================== *)
(** * anyconfig/getset.py                                              *)
(* ================================================================== *)

Module GetSet.

(** The second component of the getters' results. [_get_recur] builds
    its messages itself; [_get_reduce] returns [str(e)] of the exception
    it caught. *)
Inductive message : Type :=
| MsgEmpty
| MsgNotFoundAt (path : string)
| MsgNotADictAt (path : string) (err : pyexc)
| MsgStrOf (err : pyexc).

Definition __str_path (keys : list string) : string := String.concat "." keys.

Fixpoint _get_recur (dic : value) (path_keys traversed : list string)
    : result (value * message) :=
  match path_keys with
  | key :: rest =>
      try_except
        (found <- contains dic key ;;
         if (found : bool) then
           sub <- getitem dic key ;;
           _get_recur sub rest (traversed ++ [key])
         else
           Return (VNone, MsgNotFoundAt (__str_path (traversed ++ [key]))))
        is_TypeError
        (fun e => Return (VNone, MsgNotADictAt (__str_path (traversed ++ [key])) e))
  | [] => Return (dic, MsgEmpty)
  end.

Definition _get_reduce (dic : value) (path_keys : list string)
    : result (value * message) :=
  try_except
    (res <- reduce getitem path_keys dic ;; Return (res, MsgEmpty))
    is_TypeError_or_KeyError
    (fun e => Return (VNone, MsgStrOf e)).

Section Paths.

(** [anyconfig.parser.parse_path] is not part of these sources; it is
    taken as a parameter. The separators are always passed explicitly
    (the default [P.PATH_SEPS] is the caller's). *)
Variable parse_path : string -> list string -> list string.

Definition get (dic : value) (path : string) (seps : list string)
    (_get : value -> list string -> result (value * message)) : result value :=
  '(res, msg) <- _get dic (parse_path path seps) ;;
  Return res.

Definition _mk_nested_dic (path : string) (val : value) (seps : list string)
    : value :=
  fold_left
    (fun ret key =>
       VDict [(key, match ret with VNone => val | _ => ret end)])
    (rev (parse_path path seps))
    VNone.

End Paths.

(** Modelled from the spec: [anyconfig.parser.parse_path] is not part of
    these sources. A path expression is cut at every separator character
    and empty segments are dropped, so that a path of just a separator
    is the root path [[]]. Only used to run the functions above on
    concrete path expressions. *)
Fixpoint split_path (is_sep : ascii -> bool) (path : string) (segment : string)
    : list string :=
  match path with
  | EmptyString =>
      match segment with EmptyString => [] | _ => [segment] end
  | String c path' =>
      if is_sep c then
        match segment with
        | EmptyString => split_path is_sep path' EmptyString
        | _ => segment :: split_path is_sep path' EmptyString
        end
      else split_path is_sep path' (segment ++ String c EmptyString)
  end.

Definition parse_path (path : string) (seps : list string) : list string :=
  split_path
    (fun c => existsb (String.eqb (String c EmptyString)) seps)
    path EmptyString.

Definition PATH_SEPS : list string := ["/"; "."].

End GetSet.

(* ================================================================== *)
(** * anyconfig/backend/xml.py                                         *)
(* ================================================================== *)

Module Xml.

(** ** ElementTree elements *)

(** An [xml.etree.ElementTree.Element]: its tag, its attribute dict, its
    text (None, a str, or whatever object was stored there) and its
    child elements in document order. *)
Inductive Element : Type :=
  mkElement { tag : string;
              attrib : dict;
              text : value;
              children : list Element }.

(** [ET.Element(tag)] *)
Definition new_Element (tg : string) : Element := mkElement tg [] VNone [].

Definition set_text (e : Element) (v : value) : Element :=
  mkElement (tag e) (attrib e) v (children e).

Definition set_attrib (e : Element) (a : dict) : Element :=
  mkElement (tag e) a (text e) (children e).

Definition set_children (e : Element) (cs : list Element) : Element :=
  mkElement (tag e) (attrib e) (text e) cs.

(** [elem.set(attr, v)] *)
Definition Element_set (e : Element) (attr : string) (v : value) : Element :=
  set_attrib e (dict_set (attrib e) attr v).

(** [elem.append(child)] *)
Definition Element_append (e child : Element) : Element :=
  set_children e (children e ++ [child]).

(** [ET.ElementTree(root)]; the root may be None. *)
Inductive ElementTree : Type :=
| mkElementTree (root : option Element).

(** ** Strings *)

(** A str is kept as the sequence of its code points, each of them
    below 256. White space, as removed by [str.strip()] and matched by
    [\s] on a str: \t, \n, \v, \f, \r (9 to 13), the separators
    U+001C to U+001F, the space, NEL (U+0085) and the no-break space
    (U+00A0). *)
Definition isspace (c : ascii) : bool :=
  let n := nat_of_ascii c in
  ((9 <=? n)%nat && (n <=? 13)%nat) || ((28 <=? n)%nat && (n <=? 32)%nat)
  || (n =? 133)%nat || (n =? 160)%nat.

Fixpoint lstrip (s : string) : string :=
  match s with
  | EmptyString => EmptyString
  | String c s' => if isspace c then lstrip s' else s
  end.

Fixpoint rstrip (s : string) : string :=
  match s with
  | EmptyString => EmptyString
  | String c s' =>
      match rstrip s' with
      | EmptyString => if isspace c then EmptyString else String c EmptyString
      | r => String c r
      end
  end.

Definition strip (s : string) : string := rstrip (lstrip s).

(** ** Namespaces *)

Definition newline : ascii := ascii_of_nat 10.
Definition lbrace : ascii := ascii_of_nat 123.
Definition rbrace : ascii := ascii_of_nat 125.

(** The position [$] matches at: the end of the string, or just before
    a newline that ends it. *)
Fixpoint drop_final_newline (l : list ascii) : list ascii :=
  match l with
  | [] => []
  | [c] => if Ascii.eqb c newline then [] else [c]
  | c :: l' => c :: drop_final_newline l'
  end.

(** The split of [g1 } g2] at the last closing brace that leaves [g2]
    non-empty, which is the one a greedy [(\S+)}(\S+)] tries first. *)
Fixpoint split_last_brace (l : list ascii) : option (list ascii * list ascii) :=
  match l with
  | [] => None
  | c :: l' =>
      match split_last_brace l' with
      | Some (g1, g2) => Some (c :: g1, g2)
      | None =>
          if Ascii.eqb c rbrace
          then match l' with [] => None | _ => Some ([], l') end
          else None
      end
  end.

(** [_ET_NS_RE.match(tag)] for [_ET_NS_RE = re.compile(r"^{(\S+)}(\S+)$")],
    yielding [matched.groups()]. *)
Definition _ET_NS_RE_match (tg : string) : option (string * string) :=
  match drop_final_newline (list_ascii_of_string tg) with
  | c :: rest =>
      if Ascii.eqb c lbrace && forallb (fun x => negb (isspace x)) rest then
        match split_last_brace rest with
        | Some (g1, g2) =>
            match g1 with
            | [] => None
            | _ => Some (string_of_list_ascii g1, string_of_list_ascii g2)
            end
        | None => None
        end
      else None
  | [] => None
  end.

Definition _tweak_ns (tg : string) (nspaces : option (list (string * string)))
    : string :=
  match nspaces with
  | Some ((_ :: _) as ns) =>
      match _ET_NS_RE_match tg with
      | Some (uri, tg') =>
          match dict_get ns uri with
          | Some prefix =>
              if negb (String.eqb prefix "") then prefix ++ ":" ++ tg' else tg'
          | None => tg'
          end
      | None => tg
      end
  | _ => tg
  end.

(** ** Keyword options *)

(** The keyword options the functions pass along as [**options]; a key
    that is absent is [None] (or the empty dict for [tags]). *)
Record options : Type :=
  mkOptions { opt_nspaces : option (list (string * string));
              opt_tags : list (string * string);
              opt_attrs : option string;
              opt_text : option string;
              opt_children : option string;
              opt_merge_attrs : bool;
              opt_ac_parse_value : bool }.

Definition _TAGS : list (string * string) :=
  [("attrs", "@attrs"); ("text", "@text"); ("children", "@children")].

Definition default_tag (ntype : string) : string :=
  match dict_get _TAGS ntype with Some t => t | None => "" end.

Definition _complement_tag_options (o : options) : options :=
  match opt_attrs o, opt_text o, opt_children o with
  | Some _, Some _, Some _ => o
  | _, _, _ =>
      let pick ntype :=
        match dict_get (opt_tags o) ntype with
        | Some t => t
        | None => default_tag ntype
        end in
      mkOptions (opt_nspaces o) (opt_tags o)
                (Some (pick "attrs")) (Some (pick "text")) (Some (pick "children"))
                (opt_merge_attrs o) (opt_ac_parse_value o)
  end.

(** The value a keyword parameter with a default is bound to. *)
Definition attrs_key (o : options) : string :=
  match opt_attrs o with Some t => t | None => "@attrs" end.
Definition text_key (o : options) : string :=
  match opt_text o with Some t => t | None => "@text" end.
Definition children_key (o : options) : string :=
  match opt_children o with Some t => t | None => "@children" end.

(** The options [_process_children_elems] hands down: [children] is one
    of its named parameters, so the [**options] it passes to
    [elem_to_container] for each child no longer hold that key. *)
Definition without_children (o : options) : options :=
  mkOptions (opt_nspaces o) (opt_tags o) (opt_attrs o) (opt_text o) None
            (opt_merge_attrs o) (opt_ac_parse_value o).

Definition set_nspaces (o : options) (ns : option (list (string * string)))
    : options :=
  mkOptions ns (opt_tags o) (opt_attrs o) (opt_text o) (opt_children o)
            (opt_merge_attrs o) (opt_ac_parse_value o).

(** ** Helpers on lists of dicts *)

Definition _dicts_have_unique_keys (dics : list dict) : bool :=
  let key_itr := concat (map keys dics) in
  (length (nodup string_dec key_itr) =? list_sum (map (@length _) dics))%nat.

Definition _merge_dicts (dics : list dict) : dict :=
  dict_of_items (concat dics).

(** ** Element to container *)

(** [dic] holds, under the rewritten tag, a reference to the very object
    [subdic]; later updates of [subdic] show through it. A slot of [dic]
    is therefore either that reference or an object of its own. *)
Inductive slot : Type :=
| SubDic
| Obj (v : value).

Definition resolve (dic : list (string * slot)) (subdic : dict) : dict :=
  map (fun kv => (fst kv, match snd kv with SubDic => VDict subdic | Obj v => v end)) dic.

Definition nonempty {A} (l : list A) : bool :=
  match l with [] => false | _ :: _ => true end.

(** [obj.strip()] *)
Definition str_strip (obj : value) : result value :=
  match obj with
  | VStr s => Return (VStr (strip s))
  | _ => Raise AttributeError
  end.

Section Transducers.

(** [anyconfig.parser.parse_single] and the builtin [str] are not part of
    these sources; they are taken as parameters. *)
Variable parse_single : value -> value.
Variable py_str : value -> string.

Definition _parse_text (val : value) (o : options) : value :=
  if truthy val && opt_ac_parse_value o then parse_single val else val.

(** Returns the element with its text updated, [dic] and [subdic]. *)
Definition _process_elem_text (elem : Element) (dic : list (string * slot))
    (subdic : dict) (o : options)
    : result (Element * list (string * slot) * dict) :=
  stripped <- str_strip (text elem) ;;
  let elem := set_text elem stripped in
  if truthy (text elem) then
    let etext := _parse_text (text elem) o in
    if nonempty (children elem) || nonempty (attrib elem) then
      Return (elem, dic, dict_set subdic (text_key o) etext)
    else
      Return (elem, dict_set dic (tag elem) (Obj etext), subdic)
  else Return (elem, dic, subdic).

(** [to_container] is [dict]: called on a dict it copies it. *)
Definition _parse_attrs (elem : Element) (o : options) : dict :=
  if opt_ac_parse_value o then
    map (fun kv => (fst kv, parse_single (snd kv))) (attrib elem)
  else attrib elem.

Definition _process_elem_attrs (elem : Element) (dic : list (string * slot))
    (subdic : dict) (o : options) : list (string * slot) * dict :=
  let adic := _parse_attrs elem o in
  if negb (truthy (text elem)) && negb (nonempty (children elem))
     && opt_merge_attrs o then
    (dict_set dic (tag elem) (Obj (VDict adic)), subdic)
  else
    (dic, dict_set subdic (attrs_key o) (VDict adic)).

(** [cdics] is the list [[elem_to_container(c, ...) for c in elem]],
    computed by the caller with the options this function passes on,
    [without_children o]. *)
Definition _process_children_elems (elem : Element) (cdics : list dict)
    (dic : list (string * slot)) (subdic : dict) (o : options)
    : list (string * slot) * dict :=
  let merge_attrs := opt_merge_attrs o in
  let sdics := (if merge_attrs then attrib elem else subdic) :: cdics in
  if _dicts_have_unique_keys sdics then
    (dict_set dic (tag elem) (Obj (VDict (_merge_dicts sdics))), subdic)
  else if negb (nonempty subdic) then
    (dict_set dic (tag elem) (Obj (VList (map VDict cdics))), subdic)
  else
    (dic, dict_set subdic (children_key o) (VList (map VDict cdics))).

(** Returns the element as the call leaves it, and the container. The
    element is never None here: [root_to_container] tests that before the
    call, and the children of an element are elements. The loop over the
    children runs over the children of the argument, which the text step
    leaves as they are; each child is converted with the options
    [_process_children_elems] passes on, which do not hold [children]:
    below the element the call is made on, the children marker is the
    default one. *)
Fixpoint elem_to_container (o : options) (elem : Element) {struct elem}
    : result (Element * dict) :=
  let dic := dict_set [] (_tweak_ns (tag elem) (opt_nspaces o)) SubDic in
  let subdic := [] in
  '(elem1, dic, subdic) <-
     (if truthy (text elem) then _process_elem_text elem dic subdic o
      else Return (elem, dic, subdic)) ;;
  let '(dic, subdic) :=
     if nonempty (attrib elem1) then _process_elem_attrs elem1 dic subdic o
     else (dic, subdic) in
  if nonempty (children elem1) then
    cres <- (fix each (cs : list Element) : result (list (Element * dict)) :=
               match cs with
               | [] => Return []
               | c :: cs' =>
                   r <- elem_to_container (without_children o) c ;;
                   rs <- each cs' ;;
                   Return (r :: rs)
               end) (children elem) ;;
    let elem2 := set_children elem1 (map fst cres) in
    let '(dic, subdic) :=
      _process_children_elems elem2 (map snd cres) dic subdic o in
    Return (elem2, resolve dic subdic)
  else if negb (truthy (text elem1)) && negb (nonempty (attrib elem1)) then
    Return (elem1, resolve (dict_set dic (tag elem1) (Obj VNone)) subdic)
  else
    Return (elem1, resolve dic subdic).

(** Returns the root as the call leaves it, and the container. *)
Definition root_to_container (root : option Element)
    (nspaces : option (list (string * string))) (o : options)
    : result (option Element * dict) :=
  match root with
  | None => Return (None, [])
  | Some root =>
      let root :=
        match nspaces with
        | Some ((_ :: _) as ns) =>
            fold_left
              (fun r up =>
                 let '(uri, prefix) := up in
                 Element_set r
                   (if negb (String.eqb prefix "") then "xmlns:" ++ prefix
                    else "xmlns")
                   (VStr uri))
              ns root
        | _ => root
        end in
      '(root', tree) <-
         elem_to_container (set_nspaces (_complement_tag_options o) nspaces) root ;;
      Return (Some root', tree)
  end.

(** ** Container to element *)

Definition noop (v : value) : value := v.

(** An attribute access or method call on [parent], which may be None. *)
Definition on_parent (parent : option Element) (f : Element -> Element)
    : result (option Element) :=
  match parent with
  | Some p => Return (Some (f p))
  | None => Raise AttributeError
  end.

(** [anyconfig.compat.iteritems(obj)]: [obj.items()]. *)
Definition iteritems (obj : value) : result dict :=
  match obj with
  | VDict d => Return d
  | _ => Raise AttributeError
  end.

(** The generator, run against its consumer: [consume] is what the
    caller's loop body does with each element yielded, [fill val elem]
    is [container_to_etree(val, parent=elem, **options)] and returns
    [elem] as the call leaves it. Iterating a dict yields its keys and
    iterating a str its characters, on which [iteritems] fails;
    iterating None, a bool or an int is a TypeError. *)
Definition _elem_from_descendants {S : Type}
    (fill : value -> Element -> result Element) (children_nodes : value)
    (consume : S -> Element -> result S) (s : S) : result S :=
  match children_nodes with
  | VList nodes =>
      (fix each_child (nodes : list value) (s : S) : result S :=
         match nodes with
         | [] => Return s
         | child :: nodes' =>
             s' <- match child with
                   | VDict items =>
                       (fix each_item (items : dict) (s : S) : result S :=
                          match items with
                          | [] => Return s
                          | (ckey, cval) :: items' =>
                              celem <- fill cval (new_Element ckey) ;;
                              s' <- consume s celem ;;
                              each_item items' s'
                          end) items s
                   | _ => Raise AttributeError
                   end ;;
             each_child nodes' s'
         end) nodes s
  | VDict [] => Return s
  | VDict (_ :: _) => Raise AttributeError
  | VStr EmptyString => Return s
  | VStr (String _ _) => Raise AttributeError
  | VNone | VBool _ | VInt _ => Raise TypeError
  end.

(** Modelled from the spec: [anyconfig.utils.is_iterable] is not part of
    these sources; of the values a key can hold (scalar, mapping, or
    sequence) the sequence is the iterable one. *)
Definition is_iterable (v : value) : bool :=
  match v with VList _ => true | _ => false end.

Definition _get_or_update_parent
    (fill : value -> Element -> result Element) (key : string) (val : value)
    (parent : option Element) : result (option Element) :=
  let elem := new_Element key in
  elem <- (if is_iterable val then
             match val with
             | VList vals =>
                 (fix each (vals : list value) (elem : Element)
                    : result Element :=
                    match vals with
                    | [] => Return elem
                    | val :: vals' => elem' <- fill val elem ;; each vals' elem'
                    end) vals elem
             | _ => Return elem
             end
           else fill val elem) ;;
  match parent with
  | None => Return (Some elem)
  | Some p => Return (Some (Element_append p elem))
  end.

(** Modelled from the spec: [anyconfig.mdicts.is_dict_like] is not part of
    these sources; it is the predicate "is this value mapping-like". *)
Definition is_dict_like (v : value) : bool :=
  match v with VDict _ => true | _ => false end.

(** Returns the value returned (None, or an ElementTree around the final
    [parent]) and [parent] as the call leaves it. The loop runs over
    [iteritems(obj)], the items of a dict-like [obj]. *)
Fixpoint container_to_etree (obj : value) (parent : option Element)
    (o : options) {struct obj}
    : result (option ElementTree * option Element) :=
  let _str : value -> value :=
    if opt_ac_parse_value o then (fun v => VStr (py_str v)) else noop in
  if negb (is_dict_like obj) then
    let obj := match obj with VNone => VBool false | _ => _str obj end in
    match parent with
    | Some p =>
        if truthy obj then Return (None, Some (set_text p obj))
        else Return (None, parent)
    | None => Return (None, None)
    end
  else
    let o := _complement_tag_options o in
    let fill (val : value) (elem : Element) : result Element :=
      '(_, p) <- container_to_etree val (Some elem) o ;;
      Return (match p with Some e => e | None => elem end) in
    parent <-
      match obj with
      | VDict items =>
          (fix loop (items : dict) (parent : option Element)
             : result (option Element) :=
             match items with
             | [] => Return parent
             | (key, val) :: items' =>
                 parent <-
                   (if String.eqb key (attrs_key o) then
                      avals <- iteritems val ;;
                      reduce (fun p kv =>
                                on_parent p
                                  (fun e => Element_set e (fst kv) (_str (snd kv))))
                             avals parent
                    else if String.eqb key (text_key o) then
                      on_parent parent (fun e => set_text e (_str val))
                    else if String.eqb key (children_key o) then
                      _elem_from_descendants fill val
                        (fun p celem =>
                           on_parent p (fun e => Element_append e celem))
                        parent
                    else
                      _get_or_update_parent fill key val parent) ;;
                 loop items' parent
             end) items parent
      | _ => Return parent
      end ;;
    Return (Some (mkElementTree parent), parent).

End Transducers.

End Xml.

Import GetSet Xml.

(* ================================================================== *)
(** * Properties of the path getters                                   *)
(* ================================================================== *)

Module GetSetProps.




(** The value addressed by a list of keys: every key must be a key of the
    dict reached so far. *)
Fixpoint descend (dic : value) (ks : list string) : option value :=
  match ks with
  | [] => Some dic
  | k :: ks' =>
      match dic with
      | VDict d =>
          match dict_get d k with
          | Some v => descend v ks'
          | None => None
          end
      | _ => None
      end
  end.



Definition value_or_None (o : option value) : value :=
  match o with Some v => v | None => VNone end.

(** ** The left fold *)

Lemma reduce_getitem_descend dic ks :
  match reduce getitem ks dic with
  | inr v => descend dic ks = Some v
  | inl e => descend dic ks = None /\ is_TypeError_or_KeyError e = true
  end.
Proof.
  revert dic; induction ks as [|k ks IH]; intros dic; simpl.
  - reflexivity.
  - destruct dic as [| b | n | s | l | d]; simpl; try (split; reflexivity).
    destruct (dict_get d k) as [v|]; simpl.
    + apply IH.
    + split; reflexivity.
Qed.

Lemma _get_reduce_descend dic ks :
  exists m, _get_reduce dic ks = Return (value_or_None (descend dic ks), m).
Proof.
  unfold _get_reduce.
  pose proof (reduce_getitem_descend dic ks) as H.
  destruct (reduce getitem ks dic) as [e|v]; simpl.
  - destruct H as [-> He]. rewrite He. eexists; reflexivity.
  - rewrite H. eexists; reflexivity.
Qed.

(** ** The recursive getter *)

Lemma _get_recur_descend dic ks traversed :
  exists m, _get_recur dic ks traversed = Return (value_or_None (descend dic ks), m).
Proof.
  revert dic traversed; induction ks as [|k ks IH]; intros dic traversed; simpl.
  - eexists; reflexivity.
  - destruct dic as [| b | n | s | l | d]; simpl;
      try (eexists; reflexivity).
    + destruct (index 0 k s); simpl; eexists; reflexivity.
    + destruct (existsb _ l); simpl; eexists; reflexivity.
    + destruct (dict_get d k) as [v|]; simpl.
      * destruct (IH v (traversed ++ [k])) as [m Hm]. rewrite Hm.
        eexists; reflexivity.
      * eexists; reflexivity.
Qed.




(** ** get and _mk_nested_dic *)

Section WithParser.

Variable parse_path : string -> list string -> list string.

Lemma get_reduce_descend (dic : value) (path : string) (seps : list string) :
  get parse_path dic path seps _get_reduce
  = Return (value_or_None (descend dic (parse_path path seps))).
Proof.
  unfold get.
  destruct (_get_reduce_descend dic (parse_path path seps)) as [m ->].
  reflexivity.
Qed.

Lemma get_recur_descend (dic : value) (path : string) (seps : list string) :
  get parse_path dic path seps (fun d ks => _get_recur d ks [])
  = Return (value_or_None (descend dic (parse_path path seps))).
Proof.
  unfold get.
  destruct (_get_recur_descend dic (parse_path path seps) []) as [m ->].
  reflexivity.
Qed.

(** C8 (amended): for every container, path expression and separators,
    [get] returns without raising, with either getter; it returns the
    value addressed when every segment is a key of the dict reached so
    far, and None otherwise, for an absent key and for a value that
    cannot be traversed alike: the message is dropped and the caller is
    given neither an error kind nor the failing segment. *)
Theorem C8_get_returns_None_on_failure (dic : value) (path : string)
    (seps : list string) :
  get parse_path dic path seps _get_reduce
  = Return (value_or_None (descend dic (parse_path path seps)))
  /\ get parse_path dic path seps (fun d ks => _get_recur d ks [])
     = Return (value_or_None (descend dic (parse_path path seps))).
Proof.
  split; [apply get_reduce_descend | apply get_recur_descend].
Qed.

(** The chain of single-key dicts built for a non-empty list of keys. *)
Lemma nested_fold (val : value) (ks : list string) (k : string) :
  fold_left
    (fun ret key => VDict [(key, match ret with VNone => val | _ => ret end)])
    (rev (ks ++ [k])) VNone
  = fold_right (fun key inner => VDict [(key, inner)]) (VDict [(k, val)]) ks.
Proof.
  rewrite rev_app_distr. simpl.
  induction ks as [|k0 ks IH]; simpl.
  - reflexivity.
  - rewrite fold_left_app. simpl. rewrite IH.
    destruct ks; reflexivity.
Qed.

Lemma descend_nested (val : value) (ks : list string) (k : string) :
  descend (fold_right (fun key inner => VDict [(key, inner)]) (VDict [(k, val)]) ks)
          (ks ++ [k]) = Some val.
Proof.
  induction ks as [|k0 ks IH]; simpl.
  - rewrite String.eqb_refl. reflexivity.
  - rewrite String.eqb_refl. exact IH.
Qed.

(** C7 (amended): for every path expression that parses to at least one
    segment and every value, retrieving the path from the nested dict
    built for it returns the value. *)
Theorem C7_get_mk_nested_dic (path : string) (val : value) (seps : list string) :
  parse_path path seps <> [] ->
  get parse_path (_mk_nested_dic parse_path path val seps) path seps _get_reduce
  = Return val.
Proof.
  intros Hne.
  rewrite get_reduce_descend.
  unfold _mk_nested_dic.
  destruct (exists_last Hne) as [ks [k Hks]].
  rewrite Hks, nested_fold, descend_nested. reflexivity.
Qed.

End WithParser.

(** C7, as stated, fails on the root path: nothing is built for it, and
    the value is not retrieved. *)
Lemma C7_root_path_loses_value :
  parse_path "/" PATH_SEPS = []
  /\ _mk_nested_dic parse_path "/" (VInt 1) PATH_SEPS = VNone
  /\ get parse_path (_mk_nested_dic parse_path "/" (VInt 1) PATH_SEPS)
         "/" PATH_SEPS _get_reduce = Return VNone
  /\ get parse_path (_mk_nested_dic parse_path "/" (VInt 1) PATH_SEPS)
         "/" PATH_SEPS _get_reduce <> Return (VInt 1).
Proof.
  repeat split; try reflexivity. discriminate.
Qed.

Lemma C7_get_mk_nested_dic_witness :
  parse_path "a.b.c" PATH_SEPS <> []
  /\ get parse_path (_mk_nested_dic parse_path "a.b.c" (VInt 1) PATH_SEPS)
         "a.b.c" PATH_SEPS _get_reduce = Return (VInt 1).
Proof.
  split.
  - discriminate.
  - apply (C7_get_mk_nested_dic parse_path "a.b.c" (VInt 1) PATH_SEPS).
    discriminate.
Defined.

(** C8, as stated, fails: an absent key and a value that cannot be
    traversed give the caller the same None, which is also what a stored
    None gives. *)
Lemma C8_failures_not_told_apart :
  get parse_path (VDict [("a", VInt 1)]) "b" PATH_SEPS _get_reduce = Return VNone
  /\ get parse_path (VStr "a str") "a" PATH_SEPS _get_reduce = Return VNone
  /\ get parse_path (VDict [("a", VNone)]) "a" PATH_SEPS _get_reduce = Return VNone.
Proof.
  repeat split; reflexivity.
Qed.

End GetSetProps.

(* ================================================================== *)
(** * Properties of the XML transducers                                *)
(* ================================================================== *)

Module XmlProps.

(** ** Namespace rewriting *)

Definition no_space (s : string) : bool :=
  forallb (fun c => negb (isspace c)) (list_ascii_of_string s).

Definition no_rbrace (s : string) : bool :=
  forallb (fun c => negb (Ascii.eqb c rbrace)) (list_ascii_of_string s).

(** The prefix declared for a URI; a URI that is not declared has the
    empty prefix. *)
Definition declared_prefix (nspaces : option (list (string * string)))
    (uri : string) : string :=
  match nspaces with
  | Some ns => match dict_get ns uri with Some p => p | None => "" end
  | None => ""
  end.

Lemma list_ascii_of_string_app (s1 s2 : string) :
  list_ascii_of_string (s1 ++ s2)
  = list_ascii_of_string s1 ++ list_ascii_of_string s2.
Proof.
  induction s1 as [|c s1 IH]; simpl; [reflexivity | now rewrite IH].
Qed.

Lemma drop_final_newline_no_space (l : list ascii) :
  forallb (fun c => negb (isspace c)) l = true -> drop_final_newline l = l.
Proof.
  induction l as [|c l IH]; simpl; [reflexivity|].
  intros H. apply andb_prop in H. destruct H as [Hc Hl].
  destruct l as [|c' l'].
  - destruct (Ascii.eqb_spec c newline) as [->|]; [discriminate Hc | reflexivity].
  - f_equal. apply IH, Hl.
Qed.

Lemma split_last_brace_none (l : list ascii) :
  forallb (fun c => negb (Ascii.eqb c rbrace)) l = true ->
  split_last_brace l = None.
Proof.
  induction l as [|c l IH]; simpl; [reflexivity|].
  intros H. apply andb_prop in H. destruct H as [Hc Hl].
  rewrite (IH Hl). apply negb_true_iff in Hc. now rewrite Hc.
Qed.

Lemma split_last_brace_app (g1 g2 : list ascii) :
  g2 <> [] ->
  forallb (fun c => negb (Ascii.eqb c rbrace)) g2 = true ->
  split_last_brace (g1 ++ rbrace :: g2) = Some (g1, g2).
Proof.
  intros Hne Hg2. induction g1 as [|c g1 IH]; simpl.
  - rewrite (split_last_brace_none g2 Hg2).
    destruct g2; [contradiction | reflexivity].
  - now rewrite IH.
Qed.

Lemma _ET_NS_RE_match_qualified (uri loc : string) :
  uri <> "" -> loc <> "" ->
  no_space uri = true -> no_space loc = true -> no_rbrace loc = true ->
  _ET_NS_RE_match ("{" ++ uri ++ "}" ++ loc)%string = Some (uri, loc).
Proof.
  intros Hu Hl Hsu Hsl Hbl. unfold _ET_NS_RE_match, no_space, no_rbrace in *.
  assert (Hall : forallb (fun c => negb (isspace c))
                   (list_ascii_of_string (uri ++ "}" ++ loc)%string) = true).
  { rewrite list_ascii_of_string_app, forallb_app. simpl.
    now rewrite Hsu, Hsl. }
  change ("{" ++ uri ++ "}" ++ loc)%string with (String lbrace (uri ++ "}" ++ loc)%string).
  cbn [list_ascii_of_string].
  rewrite drop_final_newline_no_space by (simpl; exact Hall).
  rewrite Ascii.eqb_refl, Hall. cbn [andb].
  rewrite list_ascii_of_string_app.
  change (list_ascii_of_string ("}" ++ loc)%string) with (rbrace :: list_ascii_of_string loc).
  rewrite split_last_brace_app.
  - destruct uri as [|c uri']; [contradiction|].
    cbn [list_ascii_of_string].
    change (c :: list_ascii_of_string uri')
      with (list_ascii_of_string (String c uri')).
    now rewrite !string_of_list_ascii_of_string.
  - destruct loc; [contradiction | discriminate].
  - exact Hbl.
Qed.

(** C9, as stated, fails: with a non-empty namespace map that does not
    declare the URI, or declares it with the empty prefix, the qualifier
    is dropped and the local name returned. *)
Lemma C9_qualifier_dropped :
  _tweak_ns "{http://example.com/ns}a" (Some [("http://example.com/other", "o")])
  = "a"
  /\ _tweak_ns "{http://example.com/ns}a" (Some [("http://example.com/ns", "")])
     = "a"
  /\ _tweak_ns "{http://example.com/ns}a" (Some [("http://example.com/other", "o")])
     <> "{http://example.com/ns}a".
Proof.
  repeat split; try reflexivity. vm_compute. discriminate.
Qed.

(** C9 (amended): for every tag [{uri}local] (uri and local name
    non-empty and free of white space, the local name free of closing
    braces) whose URI has no non-empty prefix in the namespace map:
    when the map is None or empty the tag is returned unchanged;
    otherwise the [{uri}] qualifier is dropped and the local name is
    returned. *)
Theorem C9_tweak_ns_undeclared_uri (uri loc : string)
    (nspaces : option (list (string * string))) :
  uri <> "" -> loc <> "" ->
  no_space uri = true -> no_space loc = true -> no_rbrace loc = true ->
  declared_prefix nspaces uri = "" ->
  _tweak_ns ("{" ++ uri ++ "}" ++ loc)%string nspaces
  = match nspaces with
    | Some (_ :: _) => loc
    | _ => ("{" ++ uri ++ "}" ++ loc)%string
    end.
Proof.
  intros Hu Hl Hsu Hsl Hbl Hp. unfold _tweak_ns, declared_prefix in *.
  destruct nspaces as [[|up ns]|]; try reflexivity.
  rewrite (_ET_NS_RE_match_qualified uri loc Hu Hl Hsu Hsl Hbl).
  destruct (dict_get (up :: ns) uri) as [p|]; [|reflexivity].
  subst p. reflexivity.
Qed.

Lemma C9_tweak_ns_undeclared_uri_witness :
  "http://example.com/ns" <> "" /\ "a" <> ""
  /\ no_space "http://example.com/ns" = true /\ no_space "a" = true
  /\ no_rbrace "a" = true
  /\ declared_prefix (Some [("http://example.com/ns", "")]) "http://example.com/ns" = ""
  /\ _tweak_ns ("{" ++ "http://example.com/ns" ++ "}" ++ "a")%string
               (Some [("http://example.com/ns", "")]) = "a".
Proof.
  do 2 (split; [discriminate|]). do 4 (split; [reflexivity|]).
  apply (C9_tweak_ns_undeclared_uri "http://example.com/ns" "a"
           (Some [("http://example.com/ns", "")]));
    try discriminate; reflexivity.
Defined.

(** ** Concrete runs *)

(** No keyword option given. *)
Definition no_options : options :=
  mkOptions None [] None None None false false.


(** Stand-ins for [parse_single] and [str] in concrete runs; with
    [ac_parse_value] off neither is called. *)
Definition parse_unused (v : value) : value := v.
Definition str_unused (v : value) : string :=
  match v with VStr s => s | _ => EmptyString end.

Definition leaf (tg : string) (tx : value) : Element := mkElement tg [] tx [].

(** C2: the element [<ns:a xmlns:ns="http://example.com/ns">x</ns:a>],
    whose tag ElementTree gives as [{http://example.com/ns}a], is
    converted to a dict of two entries: the empty sub-dict under the
    rewritten tag and the text under the tag as it was. *)
Lemma C2_two_entries_for_rewritten_tag :
  elem_to_container parse_unused
    (set_nspaces no_options (Some [("http://example.com/ns", "ns")]))
    (leaf "{http://example.com/ns}a" (VStr "x"))
  = Return (leaf "{http://example.com/ns}a" (VStr "x"),
            [("ns:a", VDict []); ("{http://example.com/ns}a", VStr "x")]).
Proof. reflexivity. Qed.

(** The document [<a x="1"><b><c/><c/></b><b/></a>]. *)
Definition doc_nested_repeats : Element :=
  mkElement "a" [("x", VStr "1")] VNone
    [ mkElement "b" [] VNone [leaf "c" VNone; leaf "c" VNone];
      leaf "b" VNone ].

(** What the dump makes of the container of [doc_nested_repeats]. *)
Definition container_nested_repeats : dict :=
  [("a", VDict [("@attrs", VDict [("x", VStr "1")]);
                ("@children",
                 VList [VDict [("b", VList [VDict [("c", VNone)];
                                            VDict [("c", VNone)]])];
                        VDict [("b", VNone)]])])].

Definition dumped_nested_repeats : Element :=
  mkElement "a" [("x", VStr "1")] VNone
    [ leaf "b" (VList [VDict [("c", VNone)]; VDict [("c", VNone)]]);
      leaf "b" VNone ].

(** A dump defect on repeated sibling tags: on [doc_nested_repeats] the
    first conversion succeeds, the dump stores the list held by the
    first [b] as that element's text instead of making [c] elements of
    it, and the second conversion raises on that text. *)
Lemma list_under_children_marker_dumped_as_text :
  root_to_container parse_unused (Some doc_nested_repeats) None no_options
  = Return (Some doc_nested_repeats, container_nested_repeats)
  /\ container_to_etree str_unused (VDict container_nested_repeats) None no_options
     = Return (Some (mkElementTree (Some dumped_nested_repeats)),
               Some dumped_nested_repeats)
  /\ root_to_container parse_unused (Some dumped_nested_repeats) None no_options
     = Raise AttributeError.
Proof. repeat split; reflexivity. Qed.

(** C5, as stated, fails: a top-level container that is not a dict
    makes [container_to_etree] return None, with no error at all; a
    top-level dict with an empty attrs marker only is accepted and
    gives a tree without root; an empty str under the children marker
    is accepted as well. *)
Lemma C5_non_mapping_returns_None :
  container_to_etree str_unused (VStr "x") None no_options = Return (None, None)
  /\ container_to_etree str_unused (VList [VInt 1]) None no_options
     = Return (None, None)
  /\ container_to_etree str_unused (VDict [("@attrs", VDict [])]) None no_options
     = Return (Some (mkElementTree None), None)
  /\ container_to_etree str_unused
       (VDict [("a", VDict [("@children", VStr "")])]) None no_options
     = Return (Some (mkElementTree (Some (new_Element "a"))),
               Some (new_Element "a")).
Proof. repeat split; reflexivity. Qed.

Definition not_iterable (v : value) : bool :=
  match v with VNone | VBool _ | VInt _ => true | _ => false end.

(** ** Facts about dicts *)

Lemma dict_get_None_keys {A} (d : list (string * A)) (k : string) :
  dict_get d k = None <-> ~ In k (keys d).
Proof.
  induction d as [|[k' v] d IH]; simpl.
  - tauto.
  - destruct (String.eqb_spec k' k) as [->|Hne].
    + split; [discriminate | intros H; exfalso; apply H; now left].
    + rewrite IH. split.
      * intros H [Heq|Hin]; [now apply Hne | now apply H].
      * intros H Hin. apply H. now right.
Qed.

Lemma dict_set_fresh {A} (d : list (string * A)) (k : string) (v : A) :
  ~ In k (keys d) -> dict_set d k v = d ++ [(k, v)].
Proof.
  induction d as [|[k' v'] d IH]; simpl; intros Hk.
  - reflexivity.
  - destruct (String.eqb_spec k' k) as [->|Hne].
    + exfalso. apply Hk. now left.
    + f_equal. apply IH. intros Hin. apply Hk. now right.
Qed.

Lemma dict_get_set_same {A} (d : list (string * A)) (k : string) (v : A) :
  dict_get (dict_set d k v) k = Some v.
Proof.
  induction d as [|[k' v'] d IH]; simpl.
  - now rewrite String.eqb_refl.
  - destruct (String.eqb k' k) eqn:E; simpl; rewrite E; [reflexivity | exact IH].
Qed.

Lemma dict_get_set_other {A} (d : list (string * A)) (k k0 : string) (v : A) :
  k <> k0 -> dict_get (dict_set d k v) k0 = dict_get d k0.
Proof.
  intros Hne. induction d as [|[k' v'] d IH]; simpl.
  - apply String.eqb_neq in Hne. now rewrite Hne.
  - destruct (String.eqb_spec k' k) as [->|Hk]; simpl.
    + apply String.eqb_neq in Hne. now rewrite Hne.
    + now rewrite IH.
Qed.


Lemma dict_of_items_fold {A} (items acc : list (string * A)) :
  NoDup (keys (acc ++ items)) ->
  fold_left (fun d kv => dict_set d (fst kv) (snd kv)) items acc = acc ++ items.
Proof.
  revert acc. induction items as [|[k v] items IH]; intros acc Hnd; simpl.
  - now rewrite app_nil_r.
  - unfold keys in Hnd. rewrite map_app in Hnd. simpl in Hnd.
    rewrite dict_set_fresh.
    + rewrite IH.
      * now rewrite <- app_assoc.
      * unfold keys. rewrite <- app_assoc, map_app. exact Hnd.
    + apply NoDup_remove_2 in Hnd. intros Hin. apply Hnd.
      apply in_or_app. now left.
Qed.

Lemma dict_of_items_NoDup {A} (items : list (string * A)) :
  NoDup (keys items) -> dict_of_items items = items.
Proof.
  intros Hnd. unfold dict_of_items. now rewrite dict_of_items_fold.
Qed.

Lemma nodup_length_le (l : list string) :
  (length (nodup string_dec l) <= length l)%nat.
Proof.
  induction l as [|x l IH]; simpl; [lia|].
  destruct (in_dec string_dec x l); simpl; lia.
Qed.

Lemma nodup_length_NoDup (l : list string) :
  length (nodup string_dec l) = length l <-> NoDup l.
Proof.
  split.
  - induction l as [|x l IH]; simpl; intros H; [constructor|].
    destruct (in_dec string_dec x l) as [Hin|Hin].
    + pose proof (nodup_length_le l). lia.
    + simpl in H. constructor; [exact Hin | apply IH; lia].
  - intros H. now rewrite nodup_fixed_point.
Qed.

Lemma keys_concat (dics : list dict) :
  keys (concat dics) = concat (map keys dics).
Proof. unfold keys. apply concat_map. Qed.

Lemma length_concat_keys (dics : list dict) :
  length (concat (map keys dics)) = list_sum (map (@length _) dics).
Proof.
  induction dics as [|d dics IH]; simpl; [reflexivity|].
  rewrite length_app, IH. unfold keys. now rewrite length_map.
Qed.

(** The test of [_dicts_have_unique_keys] is: no key occurs twice in
    the dicts taken together. *)
Lemma _dicts_have_unique_keys_NoDup (dics : list dict) :
  _dicts_have_unique_keys dics = true <-> NoDup (concat (map keys dics)).
Proof.
  unfold _dicts_have_unique_keys.
  rewrite Nat.eqb_eq, <- length_concat_keys. apply nodup_length_NoDup.
Qed.

Lemma _merge_dicts_NoDup (dics : list dict) :
  NoDup (concat (map keys dics)) -> _merge_dicts dics = concat dics.
Proof.
  intros H. unfold _merge_dicts. apply dict_of_items_NoDup.
  now rewrite keys_concat.
Qed.

(** ** Elements as a parser gives them *)

Definition is_text (v : value) : bool :=
  match v with VNone | VStr _ => true | _ => false end.

(** Every text of the tree is None or a str. *)
Fixpoint str_texts (e : Element) : bool :=
  is_text (text e) && forallb str_texts (children e).


Definition stripped (v : value) : value :=
  match v with VStr s => VStr (strip s) | _ => v end.

(** The tree with every text stripped, and nothing else changed. *)
Fixpoint strip_texts (e : Element) : Element :=
  mkElement (tag e) (attrib e) (stripped (text e)) (map strip_texts (children e)).

(** The attributes of a root after one [xmlns] attribute per entry of
    the namespace map was set. *)
Definition xmlns_attrib (nspaces : option (list (string * string))) (a : dict)
    : dict :=
  match nspaces with
  | Some ns =>
      fold_left
        (fun a up =>
           dict_set a
             (if String.eqb (snd up) "" then "xmlns" else ("xmlns:" ++ snd up)%string)
             (VStr (fst up)))
        ns a
  | None => a
  end.

Lemma Element_induction (P : Element -> Prop) :
  (forall tg a tx cs, Forall P cs -> P (mkElement tg a tx cs)) ->
  forall e, P e.
Proof.
  intros H. fix IH 1. intros [tg a tx cs]. apply H.
  induction cs as [|c cs IHcs]; constructor; [apply IH | exact IHcs].
Qed.

Section MapM.

Context {A B : Type} (f : A -> result B).

(** [[f(x) for x in l]] with an [f] that may raise. *)
Fixpoint mapM (l : list A) : result (list B) :=
  match l with
  | [] => Return []
  | x :: l' => r <- f x ;; rs <- mapM l' ;; Return (r :: rs)
  end.

End MapM.

Section Transducing.

Variable parse_single : value -> value.

(** The container a conversion returns (empty if it raises). *)
Definition to_dict (o : options) (e : Element) : dict :=
  match elem_to_container parse_single o e with
  | inr (_, d) => d
  | inl _ => []
  end.

(** One unfolding of [elem_to_container]. *)
Lemma elem_to_container_eq (o : options) (elem : Element) :
  elem_to_container parse_single o elem
  = (let dic := dict_set [] (_tweak_ns (tag elem) (opt_nspaces o)) SubDic in
     let subdic := [] in
     '(elem1, dic, subdic) <-
        (if truthy (text elem)
         then _process_elem_text parse_single elem dic subdic o
         else Return (elem, dic, subdic)) ;;
     let '(dic, subdic) :=
        if nonempty (attrib elem1)
        then _process_elem_attrs parse_single elem1 dic subdic o
        else (dic, subdic) in
     if nonempty (children elem1) then
       cres <- mapM (elem_to_container parse_single (without_children o))
                    (children elem) ;;
       let elem2 := set_children elem1 (map fst cres) in
       let '(dic, subdic) :=
         _process_children_elems elem2 (map snd cres) dic subdic o in
       Return (elem2, resolve dic subdic)
     else if negb (truthy (text elem1)) && negb (nonempty (attrib elem1)) then
       Return (elem1, resolve (dict_set dic (tag elem1) (Obj VNone)) subdic)
     else
       Return (elem1, resolve dic subdic)).
Proof. destruct elem. reflexivity. Qed.

Lemma mapM_children (o : options) (cs : list Element) :
  Forall (fun c => exists d,
            elem_to_container parse_single o c = Return (strip_texts c, d)) cs ->
  mapM (elem_to_container parse_single o) cs
  = Return (map (fun c => (strip_texts c, to_dict o c)) cs).
Proof.
  induction 1 as [|c cs [d Hc] _ IH]; simpl.
  - reflexivity.
  - unfold to_dict at 1. rewrite Hc, IH. reflexivity.
Qed.

Lemma map_fst_pair {A B C} (f : A -> B) (g : A -> C) (l : list A) :
  map fst (map (fun x => (f x, g x)) l) = map f l.
Proof. rewrite map_map. reflexivity. Qed.

Lemma map_snd_pair {A B C} (f : A -> B) (g : A -> C) (l : list A) :
  map snd (map (fun x => (f x, g x)) l) = map g l.
Proof. rewrite map_map. reflexivity. Qed.

(** The text step on a text that is None or a str. *)
Lemma text_step_str (o : options) (elem : Element)
    (dic : list (string * slot)) (subdic : dict) :
  is_text (text elem) = true ->
  (if truthy (text elem)
   then _process_elem_text parse_single elem dic subdic o
   else Return (elem, dic, subdic))
  = let elem1 := set_text elem (stripped (text elem)) in
    Return
      (if truthy (text elem1) then
         if nonempty (children elem) || nonempty (attrib elem) then
           (elem1, dic, dict_set subdic (text_key o)
                                 (_parse_text parse_single (text elem1) o))
         else
           (elem1, dict_set dic (tag elem)
                            (Obj (_parse_text parse_single (text elem1) o)),
            subdic)
       else (elem1, dic, subdic)).
Proof.
  destruct elem as [tg a tx cs]; simpl. intros Htx.
  destruct tx as [| b | n | s | l | d]; try discriminate Htx; simpl.
  - reflexivity.
  - unfold _process_elem_text; simpl.
    destruct (String.eqb s "") eqn:Hs; simpl.
    + apply String.eqb_eq in Hs. subst s. reflexivity.
    + destruct (negb (String.eqb (strip s) "")); simpl; [|reflexivity].
      destruct (nonempty cs || nonempty a); reflexivity.
Qed.

(** The container of an element in terms of the containers of its
    children, once the text step and the conversions of the children
    are known to return. *)
Definition level (o : options) (e : Element) (cdics : list dict) : dict :=
  let e1 := strip_texts e in
  let dic := dict_set [] (_tweak_ns (tag e) (opt_nspaces o)) SubDic in
  let '(dic, subdic) :=
    if truthy (text e1) then
      if nonempty (children e) || nonempty (attrib e) then
        (dic, dict_set [] (text_key o) (_parse_text parse_single (text e1) o))
      else
        (dict_set dic (tag e) (Obj (_parse_text parse_single (text e1) o)), [])
    else (dic, []) in
  let '(dic, subdic) :=
    if nonempty (attrib e)
    then _process_elem_attrs parse_single e1 dic subdic o
    else (dic, subdic) in
  if nonempty (children e) then
    let '(dic, subdic) := _process_children_elems e1 cdics dic subdic o in
    resolve dic subdic
  else if negb (truthy (text e1)) && negb (nonempty (attrib e)) then
    resolve (dict_set dic (tag e) (Obj VNone)) subdic
  else resolve dic subdic.

Lemma elem_to_container_level (o : options) (e : Element) :
  Forall (fun c => exists d,
            elem_to_container parse_single (without_children o) c
            = Return (strip_texts c, d))
         (children e) ->
  is_text (text e) = true ->
  elem_to_container parse_single o e
  = Return (strip_texts e,
            level o e (map (to_dict (without_children o)) (children e))).
Proof.
  destruct e as [tg a tx cs]. cbn [text children]. intros Hall Htx.
  rewrite elem_to_container_eq. cbv zeta.
  rewrite (text_step_str o (mkElement tg a tx cs) _ _ Htx).
  cbn [tag attrib text children set_text strip_texts].
  rewrite (mapM_children (without_children o) cs Hall).
  unfold level, _process_elem_attrs, _process_children_elems, _parse_attrs.
  cbn [tag attrib text children set_text strip_texts].
  destruct cs as [|c cs'], a as [|kv a'];
    destruct (truthy (stripped tx)) eqn:Ht;
    unfold set_text, set_children;
    cbn [bind Return tag attrib text children negb andb orb nonempty map fst snd];
    rewrite ?Ht, ?map_fst_pair, ?map_snd_pair;
    cbn [negb andb fst snd map];
    repeat (try reflexivity;
            match goal with
            | |- context [if ?b then _ else _] => destruct b
            end).
Qed.

(** Conversion of a tree whose texts are None or str returns, and leaves
    the tree with its texts stripped. *)
Lemma elem_to_container_returns (o : options) (e : Element) :
  str_texts e = true ->
  elem_to_container parse_single o e
  = Return (strip_texts e,
            level o e (map (to_dict (without_children o)) (children e))).
Proof.
  revert o. induction e as [tg a tx cs IH] using Element_induction.
  intros o Hwt. cbn [str_texts text children] in Hwt.
  apply andb_prop in Hwt. destruct Hwt as [Htx Hcs].
  apply elem_to_container_level; [|exact Htx].
  cbn [children].
  rewrite forallb_forall in Hcs. rewrite Forall_forall in IH |- *.
  intros c Hc. eexists. apply IH; auto.
Qed.


(** ** The shape of the container of one element *)

(** The sub-dict of markers of an element: its stripped text, if not
    empty, under the text marker, then its attributes, if any, under
    the attrs marker. *)
Definition markers (o : options) (e : Element) : dict :=
  let m :=
    if truthy (stripped (text e))
    then [(text_key o, _parse_text parse_single (stripped (text e)) o)]
    else [] in
  if nonempty (attrib e)
  then dict_set m (attrs_key o) (VDict (_parse_attrs parse_single e o))
  else m.

(** The dict that leads the list tested and merged by
    [_process_children_elems]. *)
Definition leading_dict (o : options) (e : Element) : dict :=
  if opt_merge_attrs o then attrib e else markers o e.

Ltac level_cases :=
  repeat (cbn [dict_set resolve map fst snd negb andb orb nonempty];
          rewrite ?String.eqb_refl;
          try (eexists; reflexivity); try reflexivity;
          match goal with
          | |- context [if ?b then _ else _] => destruct b
          end).

Lemma level_single (o : options) (e : Element) (cdics : list dict) :
  _tweak_ns (tag e) (opt_nspaces o) = tag e ->
  exists v, level o e cdics = [(tag e, v)].
Proof.
  destruct e as [tg a tx cs].
  unfold level, _process_elem_attrs, _process_children_elems.
  cbn [tag attrib text children strip_texts]. intros ->.
  destruct cs as [|c cs'], a as [|kv a']; level_cases.
Qed.

Lemma level_children (o : options) (e : Element) (cdics : list dict) :
  children e <> [] ->
  _tweak_ns (tag e) (opt_nspaces o) = tag e ->
  level o e cdics
  = [(tag e,
      if _dicts_have_unique_keys (leading_dict o e :: cdics) then
        VDict (_merge_dicts (leading_dict o e :: cdics))
      else if negb (nonempty (markers o e)) then
        VList (map VDict cdics)
      else
        VDict (dict_set (markers o e) (children_key o) (VList (map VDict cdics))))].
Proof.
  destruct e as [tg a tx cs].
  unfold level, leading_dict, markers, _process_elem_attrs,
    _process_children_elems, _parse_attrs.
  cbn [tag attrib text children strip_texts]. intros Hcs ->.
  destruct cs as [|c cs']; [contradiction|].
  destruct a as [|kv a'], (truthy (stripped tx)), (opt_merge_attrs o);
    cbn [dict_set resolve map fst snd negb andb orb nonempty];
    rewrite ?String.eqb_refl;
    match goal with
    | |- context [if _dicts_have_unique_keys ?l then _ else _] =>
        destruct (_dicts_have_unique_keys l)
    end;
    cbn [dict_set resolve map fst snd negb andb orb nonempty];
    rewrite ?String.eqb_refl; try reflexivity;
    match goal with
    | |- context [nonempty ?l] => destruct (nonempty l)
    end;
    cbn [dict_set resolve map fst snd negb andb orb nonempty];
    rewrite ?String.eqb_refl; reflexivity.
Qed.








Lemma declare_namespaces (ns : list (string * string)) (root : Element) :
  fold_left
    (fun r up =>
       let '(uri, prefix) := up in
       Element_set r
         (if negb (String.eqb prefix "") then ("xmlns:" ++ prefix)%string
          else "xmlns")
         (VStr uri))
    ns root
  = mkElement (tag root) (xmlns_attrib (Some ns) (attrib root))
              (text root) (children root).
Proof.
  revert root. induction ns as [|[uri prefix] ns IH]; intros root.
  - destruct root; reflexivity.
  - cbn [fold_left]. rewrite IH. unfold xmlns_attrib, Element_set, set_attrib.
    cbn [tag attrib text children fold_left fst snd].
    destruct (String.eqb prefix ""); reflexivity.
Qed.

Lemma root_to_container_eq (o : options) (e : Element)
    (nspaces : option (list (string * string))) :
  root_to_container parse_single (Some e) nspaces o
  = ('(root', tree) <-
       elem_to_container parse_single
         (set_nspaces (_complement_tag_options o) nspaces)
         (mkElement (tag e) (xmlns_attrib nspaces (attrib e))
                    (text e) (children e)) ;;
     Return (Some root', tree)).
Proof.
  unfold root_to_container.
  destruct nspaces as [[|up ns]|].
  - destruct e; reflexivity.
  - now rewrite declare_namespaces.
  - destruct e; reflexivity.
Qed.

(** C10 (amended): converting a tree whose texts are None or str
    returns and leaves every tag, every attribute dict and the shape of
    the tree as they were, while the text of every element is replaced
    by its stripped text; [root_to_container] moreover sets on the root
    one [xmlns] attribute per entry of the namespace map. *)
Theorem C10_texts_stripped_in_place (o : options) (e : Element) :
  str_texts e = true ->
  (exists d, elem_to_container parse_single o e = Return (strip_texts e, d))
  /\ (forall nspaces,
        exists root' d,
          root_to_container parse_single (Some e) nspaces o
          = Return (Some root', d)
          /\ tag root' = tag e
          /\ attrib root' = xmlns_attrib nspaces (attrib e)
          /\ text root' = stripped (text e)
          /\ children root' = map strip_texts (children e)).
Proof.
  intros Hs. split.
  - eexists. apply elem_to_container_returns, Hs.
  - intros nspaces. rewrite root_to_container_eq.
    rewrite elem_to_container_returns by (destruct e; exact Hs).
    cbn [bind Return].
    do 2 eexists. split; [reflexivity|]. repeat split.
Qed.

End Transducing.

Section Dumping.

Variable py_str : value -> string.

(** C5 (amended): [container_to_etree] has no error of its own for an
    ill-shaped container. A top-level container that is not a dict makes
    it return None without raising. With pairwise distinct markers, a
    value under the children marker that is None, a bool or an int
    raises a plain TypeError, a list under it whose first member is not
    a dict raises a plain AttributeError, and a top-level dict holding
    only the text marker raises a plain AttributeError. *)
Theorem C5_errors_are_generic (o : options) :
  attrs_key (_complement_tag_options o) <> text_key (_complement_tag_options o) ->
  attrs_key (_complement_tag_options o) <> children_key (_complement_tag_options o) ->
  text_key (_complement_tag_options o) <> children_key (_complement_tag_options o) ->
  (forall obj, is_dict_like obj = false ->
     container_to_etree py_str obj None o = Return (None, None))
  /\ (forall v parent, not_iterable v = true ->
        container_to_etree py_str
          (VDict [(children_key (_complement_tag_options o), v)]) parent o
        = Raise TypeError)
  /\ (forall v rest parent, is_dict_like v = false ->
        container_to_etree py_str
          (VDict [(children_key (_complement_tag_options o), VList (v :: rest))])
          parent o
        = Raise AttributeError)
  /\ (forall v,
        container_to_etree py_str
          (VDict [(text_key (_complement_tag_options o), v)]) None o
        = Raise AttributeError).
Proof.
  intros Hat Hac Htc.
  apply String.eqb_neq in Hat, Hac, Htc.
  repeat split.
  - intros obj Hobj. destruct obj; try discriminate Hobj; reflexivity.
  - intros v parent Hv. simpl.
    rewrite (String.eqb_sym (children_key _) (attrs_key _)), Hac.
    rewrite (String.eqb_sym (children_key _) (text_key _)), Htc.
    rewrite String.eqb_refl.
    destruct v; try discriminate Hv; reflexivity.
  - intros v rest parent Hv. simpl.
    rewrite (String.eqb_sym (children_key _) (attrs_key _)), Hac.
    rewrite (String.eqb_sym (children_key _) (text_key _)), Htc.
    rewrite String.eqb_refl.
    destruct v; try discriminate Hv; reflexivity.
  - intros v. simpl.
    rewrite (String.eqb_sym (text_key _) (attrs_key _)), Hat.
    rewrite String.eqb_refl. reflexivity.
Qed.

End Dumping.

Lemma C5_errors_are_generic_witness :
  attrs_key (_complement_tag_options no_options)
    <> text_key (_complement_tag_options no_options)
  /\ attrs_key (_complement_tag_options no_options)
       <> children_key (_complement_tag_options no_options)
  /\ text_key (_complement_tag_options no_options)
       <> children_key (_complement_tag_options no_options)
  /\ container_to_etree str_unused (VDict [("@children", VInt 3)]) None no_options
     = Raise TypeError.
Proof.
  do 3 (split; [discriminate|]).
  apply (C5_errors_are_generic str_unused no_options);
    try discriminate; reflexivity.
Defined.

(** The element [<a x="1"><b>2</b></a>]. *)
Definition doc_attr_and_child : Element :=
  mkElement "a" [("x", VStr "1")] VNone [leaf "b" (VStr "2")].

(** The element [<a><b>1</b><b>2</b></a>]. *)
Definition doc_repeated_child : Element :=
  mkElement "a" [] VNone [leaf "b" (VStr "1"); leaf "b" (VStr "2")].





(** C10, as stated, fails: the conversion strips the text of the
    element it is given, and [root_to_container] adds the namespace
    declarations to the attributes of the root. *)
Lemma C10_input_is_updated :
  elem_to_container parse_unused no_options (leaf "a" (VStr " x "))
  = Return (leaf "a" (VStr "x"), [("a", VStr "x")])
  /\ leaf "a" (VStr "x") <> leaf "a" (VStr " x ")
  /\ root_to_container parse_unused (Some (leaf "a" VNone))
       (Some [("http://example.com/ns", "ns")]) no_options
     = Return
         (Some (mkElement "a" [("xmlns:ns", VStr "http://example.com/ns")]
                          VNone []),
          [("a", VDict [("@attrs",
                         VDict [("xmlns:ns", VStr "http://example.com/ns")])])]).
Proof.
  split; [reflexivity|]. split; [discriminate | reflexivity].
Qed.

Lemma C10_texts_stripped_in_place_witness :
  str_texts doc_attr_and_child = true
  /\ exists d,
       elem_to_container parse_unused no_options doc_attr_and_child
       = Return (strip_texts doc_attr_and_child, d).
Proof.
  split; [reflexivity|].
  apply (C10_texts_stripped_in_place parse_unused no_options doc_attr_and_child).
  reflexivity.
Defined.

End XmlProps.

(* ================================================================== *)
(** * The doctests of the sources, run on the embedding                *)
(* ================================================================== *)

Module Doctests.

Definition d : value :=
  VDict [("a", VDict [("b", VDict [("c", VInt 0); ("d", VInt 1)])])].

Example _get_recur_root : _get_recur d [] [] = Return (d, MsgEmpty).
Proof. reflexivity. Qed.

Example _get_recur_abc : _get_recur d ["a"; "b"; "c"] [] = Return (VInt 0, MsgEmpty).
Proof. reflexivity. Qed.

Example _get_recur_missing :
  _get_recur d ["a"; "b"; "key_not_exist"] []
  = Return (VNone, MsgNotFoundAt "a.b.key_not_exist").
Proof. reflexivity. Qed.

Example _get_recur_str :
  _get_recur (VStr "a str") ["a"] []
  = Return (VNone, MsgNotADictAt "a" TypeError).
Proof. reflexivity. Qed.

Example _get_reduce_abd : _get_reduce d ["a"; "b"; "d"] = Return (VInt 1, MsgEmpty).
Proof. reflexivity. Qed.

Example _get_reduce_missing :
  _get_reduce d ["a"; "b"; "key_not_exist"]
  = Return (VNone, MsgStrOf (KeyError "key_not_exist")).
Proof. reflexivity. Qed.

Example _get_reduce_str :
  _get_reduce (VStr "a str") ["a"] = Return (VNone, MsgStrOf TypeError).
Proof. reflexivity. Qed.

Example get_root : get parse_path d "/" PATH_SEPS _get_reduce = Return d.
Proof. reflexivity. Qed.

Example get_slashes : get parse_path d "/a/b/c" PATH_SEPS _get_reduce = Return (VInt 0).
Proof. reflexivity. Qed.

Example get_dots : get parse_path d "a.b.d" PATH_SEPS _get_reduce = Return (VInt 1).
Proof. reflexivity. Qed.

Example _mk_nested_dic_dots :
  _mk_nested_dic parse_path "a.b.c" (VInt 1) PATH_SEPS
  = VDict [("a", VDict [("b", VDict [("c", VInt 1)])])].
Proof. reflexivity. Qed.

Example _mk_nested_dic_slashes :
  _mk_nested_dic parse_path "/a/b/c" (VInt 1) PATH_SEPS
  = VDict [("a", VDict [("b", VDict [("c", VInt 1)])])].
Proof. reflexivity. Qed.

Example _tweak_ns_plain : _tweak_ns "a" (Some []) = "a".
Proof. reflexivity. Qed.

Example _tweak_ns_unqualified :
  _tweak_ns "a" (Some [("http://example.com/ns/val/", "val")]) = "a".
Proof. reflexivity. Qed.

Example _tweak_ns_qualified :
  _tweak_ns "{http://example.com/ns/val/}a"
            (Some [("http://example.com/ns/val/", "val")]) = "val:a".
Proof. reflexivity. Qed.

Example _dicts_have_unique_keys_1 :
  _dicts_have_unique_keys [[]; [("a", VInt 1)]; [("a", VInt 2)]] = false.
Proof. reflexivity. Qed.

Example _dicts_have_unique_keys_2 :
  _dicts_have_unique_keys
    [[]; [("a", VInt 1)]; [("b", VInt 2)]; [("b", VInt 3); ("c", VInt 0)]]
  = false.
Proof. reflexivity. Qed.

Example _dicts_have_unique_keys_3 : _dicts_have_unique_keys [[]; []] = true.
Proof. reflexivity. Qed.

Example _merge_dicts_1 : _merge_dicts [[]] = [].
Proof. reflexivity. Qed.

Example _merge_dicts_2 :
  _merge_dicts [[("a", VInt 1)]; [("b", VInt 2)]] = [("a", VInt 1); ("b", VInt 2)].
Proof. reflexivity. Qed.

(** The examples of the specification for the two children cases. *)
Example unique_children :
  XmlProps.to_dict XmlProps.parse_unused XmlProps.no_options
    (mkElement "a" [] VNone
       [XmlProps.leaf "b" (VStr "1"); XmlProps.leaf "c" (VStr "2")])
  = [("a", VDict [("b", VStr "1"); ("c", VStr "2")])].
Proof. reflexivity. Qed.

Example repeated_children :
  XmlProps.to_dict XmlProps.parse_unused XmlProps.no_options
    XmlProps.doc_repeated_child
  = [("a", VList [VDict [("b", VStr "1")]; VDict [("b", VStr "2")]])].
Proof. reflexivity. Qed.

Example dump_repeated_children :
  container_to_etree XmlProps.str_unused
    (VDict [("a", VList [VDict [("b", VStr "1")]; VDict [("b", VStr "2")]])])
    None XmlProps.no_options
  = Return (Some (mkElementTree (Some XmlProps.doc_repeated_child)),
            Some XmlProps.doc_repeated_child).
Proof. reflexivity. Qed.

Example contains_empty_key : contains (VStr "abc") "" = Return true.
Proof. reflexivity. Qed.

(** A children marker given in [tags] reaches the top element only:
    [_process_children_elems] takes [children] as a named parameter,
    so the elements below are converted with the default marker. *)
Example children_marker_below_the_top :
  root_to_container XmlProps.parse_unused
    (Some (mkElement "a" [("y", VStr "2")] VNone
             [mkElement "b" [("x", VStr "1")] VNone
                [XmlProps.leaf "c" VNone; XmlProps.leaf "c" VNone];
              XmlProps.leaf "b" VNone]))
    None (mkOptions None [("children", "#kids")] None None None false false)
  = Return
      (Some (mkElement "a" [("y", VStr "2")] VNone
               [mkElement "b" [("x", VStr "1")] VNone
                  [XmlProps.leaf "c" VNone; XmlProps.leaf "c" VNone];
                XmlProps.leaf "b" VNone]),
       [("a",
         VDict
           [("@attrs", VDict [("y", VStr "2")]);
            ("#kids",
             VList
               [VDict
                  [("b",
                    VDict
                      [("@attrs", VDict [("x", VStr "1")]);
                       ("@children",
                        VList [VDict [("c", VNone)]; VDict [("c", VNone)]])])];
                VDict [("b", VNone)]])])]).
Proof. reflexivity. Qed.

(** [str.strip()] also removes the separators U+001C to U+001F, NEL and
    the no-break space. *)
Example strip_separators :
  strip (String (ascii_of_nat 160)
           (String (ascii_of_nat 31)
              ("x" ++ String (ascii_of_nat 133) " ")%string))
  = "x".
Proof. reflexivity. Qed.

(** [\S] does not match U+001F: the tag is no qualified name and is
    returned as it is. *)
Example _tweak_ns_separator_in_uri :
  _tweak_ns ("{u" ++ String (ascii_of_nat 31) "ri}a")%string
            (Some [(("u" ++ String (ascii_of_nat 31) "ri")%string, "p")])
  = ("{u" ++ String (ascii_of_nat 31) "ri}a")%string.
Proof. reflexivity. Qed.

End Doctests.

(* ================================================================== *)
(** * More on the path getters                                         *)
(* ================================================================== *)

Module GetSetMore.

Import GetSetProps.

(** The path a failure message of [_get_recur] carries. *)
Definition message_path (m : message) : option string :=
  match m with
  | MsgNotFoundAt p | MsgNotADictAt p _ => Some p
  | MsgEmpty | MsgStrOf _ => None
  end.

Lemma reduce_app {A B} (f : A -> B -> result A) (l1 l2 : list B) (a : A) :
  reduce f (l1 ++ l2) a = bind (reduce f l1 a) (reduce f l2).
Proof.
  revert a. induction l1 as [|x l1 IH]; intros a; simpl.
  - reflexivity.
  - destruct (f a x) as [e|a']; simpl; [reflexivity | apply IH].
Qed.

Lemma descend_app (d : value) (ks1 ks2 : list string) :
  descend d (ks1 ++ ks2)
  = match descend d ks1 with Some v => descend v ks2 | None => None end.
Proof.
  revert d. induction ks1 as [|k ks1 IH]; intros d; simpl.
  - reflexivity.
  - destruct d as [| b | n | s | l | dd]; try reflexivity.
    destruct (dict_get dd k); [apply IH | reflexivity].
Qed.

Lemma _get_reduce_outcome (d : value) (ks : list string) :
  match descend d ks with
  | Some v => _get_reduce d ks = Return (v, MsgEmpty)
  | None => exists e, is_TypeError_or_KeyError e = true
                      /\ _get_reduce d ks = Return (VNone, MsgStrOf e)
  end.
Proof.
  unfold _get_reduce.
  pose proof (reduce_getitem_descend d ks) as H.
  destruct (reduce getitem ks d) as [e|v].
  - destruct H as [-> He]. exists e. split; [exact He|].
    simpl. now rewrite He.
  - rewrite H. reflexivity.
Qed.

Lemma _get_recur_outcome (d : value) (ks traversed : list string) :
  match descend d ks with
  | Some v => _get_recur d ks traversed = Return (v, MsgEmpty)
  | None => exists m, m <> MsgEmpty
                      /\ _get_recur d ks traversed = Return (VNone, m)
  end.
Proof.
  revert d traversed. induction ks as [|k ks IH]; intros d traversed; simpl.
  - reflexivity.
  - destruct d as [| b | n | s | l | dd]; simpl;
      try (eexists; split; [|reflexivity]; discriminate).
    + destruct (index 0 k s); simpl;
        eexists; (split; [|reflexivity]); discriminate.
    + destruct (existsb _ l); simpl;
        eexists; (split; [|reflexivity]); discriminate.
    + destruct (dict_get dd k) as [v|]; simpl.
      * specialize (IH v (traversed ++ [k])).
        destruct (descend v ks).
        -- rewrite IH. reflexivity.
        -- destruct IH as [m [Hm ->]]. exists m. split; [exact Hm | reflexivity].
      * eexists; split; [|reflexivity]; discriminate.
Qed.

(** X1: the message tells success from failure. When every key is a key
    of the dict reached so far, both getters return the value addressed
    with the empty message; otherwise both return None with a message
    that is not empty ([_get_reduce]: the text of the TypeError or
    KeyError it caught). *)
Theorem getters_message_empty_iff_found (d : value) (ks traversed : list string) :
  match descend d ks with
  | Some v =>
      _get_reduce d ks = Return (v, MsgEmpty)
      /\ _get_recur d ks traversed = Return (v, MsgEmpty)
  | None =>
      (exists e, is_TypeError_or_KeyError e = true
                 /\ _get_reduce d ks = Return (VNone, MsgStrOf e))
      /\ (exists m, m <> MsgEmpty
                    /\ _get_recur d ks traversed = Return (VNone, m))
  end.
Proof.
  pose proof (_get_reduce_outcome d ks) as H1.
  pose proof (_get_recur_outcome d ks traversed) as H2.
  destruct (descend d ks); split; assumption.
Qed.

(** X2: the failure message of [_get_recur] names the place of the
    failure. If the keys [pre] lead to a value [w] that does not have
    the next key [k] as a dict key, the message carries the dotted path
    of the keys traversed before the call, [pre] and [k]; it is 'Not
    found' when [k in w] is false and 'Not a dict' otherwise. *)
Theorem _get_recur_failure_names_path (d w : value)
    (pre post traversed : list string) (k : string) :
  descend d pre = Some w ->
  descend w [k] = None ->
  _get_recur d (pre ++ k :: post) traversed
  = Return (VNone,
            match contains w k with
            | inr false => MsgNotFoundAt (__str_path (traversed ++ pre ++ [k]))
            | _ => MsgNotADictAt (__str_path (traversed ++ pre ++ [k])) TypeError
            end).
Proof.
  revert d traversed. induction pre as [|k0 pre IH]; intros d traversed Hd Hk.
  - simpl in Hd. injection Hd as ->. cbn [app].
    destruct w as [| b | n | s | l | dd]; simpl in *; try reflexivity.
    + destruct (index 0 k s); reflexivity.
    + destruct (existsb _ l); reflexivity.
    + destruct (dict_get dd k); [discriminate Hk | reflexivity].
  - simpl in Hd.
    destruct d as [| b | n | s | l | dd]; try discriminate Hd.
    destruct (dict_get dd k0) as [v|] eqn:Hk0; [|discriminate Hd].
    cbn [app _get_recur contains getitem]. rewrite Hk0. cbn [bind Return].
    rewrite (IH v (traversed ++ [k0]) Hd Hk).
    rewrite <- app_assoc. reflexivity.
Qed.

Lemma _get_recur_failure_names_path_witness :
  descend (VDict [("a", VDict [("b", VInt 0)])]) ["a"] = Some (VDict [("b", VInt 0)])
  /\ descend (VDict [("b", VInt 0)]) ["c"] = None
  /\ _get_recur (VDict [("a", VDict [("b", VInt 0)])]) (["a"] ++ "c" :: ["d"]) []
     = Return (VNone, MsgNotFoundAt "a.c").
Proof.
  do 2 (split; [reflexivity|]).
  apply (_get_recur_failure_names_path
           (VDict [("a", VDict [("b", VInt 0)])]) (VDict [("b", VInt 0)])
           ["a"] ["d"] [] "c"); reflexivity.
Defined.

(** X3: the fold getter composes: once [_get_reduce] has found [v] at
    [ks1], getting [ks1 ++ ks2] from the start is getting [ks2] from
    [v], result and message alike. *)
Theorem _get_reduce_composes (d v : value) (ks1 ks2 : list string) :
  _get_reduce d ks1 = Return (v, MsgEmpty) ->
  _get_reduce d (ks1 ++ ks2) = _get_reduce v ks2.
Proof.
  unfold _get_reduce. rewrite reduce_app. intros H.
  destruct (reduce getitem ks1 d) as [e|v'].
  - simpl in H. destruct (is_TypeError_or_KeyError e); discriminate H.
  - simpl in H. injection H as ->. reflexivity.
Qed.

Lemma _get_reduce_composes_witness :
  _get_reduce Doctests.d ["a"] = Return (VDict [("b", VDict [("c", VInt 0); ("d", VInt 1)])], MsgEmpty)
  /\ _get_reduce Doctests.d (["a"] ++ ["b"; "d"])
     = _get_reduce (VDict [("b", VDict [("c", VInt 0); ("d", VInt 1)])]) ["b"; "d"].
Proof.
  split; [reflexivity|].
  apply (_get_reduce_composes Doctests.d); reflexivity.
Defined.

Lemma descend_wrapped (inner : value) (ks : list string) :
  descend (fold_right (fun key acc => VDict [(key, acc)]) inner ks) ks
  = Some inner.
Proof.
  induction ks as [|k ks IH]; simpl; [reflexivity|].
  now rewrite String.eqb_refl.
Qed.

Section WithParser.

Variable parse_path : string -> list string -> list string.

(** X4: a prefix of the path of a nested dict leads to the nested dict
    of the rest. If [path] parses to the segments of [path1] followed
    by the segments of [path2], and [path2] has a segment, then getting
    [path1] from [_mk_nested_dic(path, val)] returns
    [_mk_nested_dic(path2, val)]. *)
Theorem get_prefix_of_mk_nested_dic (path path1 path2 : string) (val : value)
    (seps : list string) :
  parse_path path seps = parse_path path1 seps ++ parse_path path2 seps ->
  parse_path path2 seps <> [] ->
  get parse_path (_mk_nested_dic parse_path path val seps) path1 seps _get_reduce
  = Return (_mk_nested_dic parse_path path2 val seps).
Proof.
  intros Hsplit Hne.
  rewrite get_reduce_descend. unfold _mk_nested_dic. rewrite Hsplit.
  destruct (exists_last Hne) as [ks [k Hks]]. rewrite Hks.
  rewrite app_assoc, !nested_fold, fold_right_app, descend_wrapped.
  reflexivity.
Qed.

End WithParser.

Lemma get_prefix_of_mk_nested_dic_witness :
  parse_path "a.b.c" PATH_SEPS = parse_path "a" PATH_SEPS ++ parse_path "b.c" PATH_SEPS
  /\ parse_path "b.c" PATH_SEPS <> []
  /\ get parse_path (_mk_nested_dic parse_path "a.b.c" (VInt 1) PATH_SEPS)
         "a" PATH_SEPS _get_reduce
     = Return (VDict [("b", VDict [("c", VInt 1)])]).
Proof.
  split; [reflexivity|]. split; [discriminate|].
  apply (get_prefix_of_mk_nested_dic parse_path "a.b.c" "a" "b.c" (VInt 1) PATH_SEPS);
    [reflexivity | discriminate].
Defined.

End GetSetMore.

(* ================================================================== *)
(** * More on the XML backend                                          *)
(* ================================================================== *)

Module XmlMore.

Import XmlProps.

(** ** Lists of dicts *)

(** X5: [_dicts_have_unique_keys] answers True exactly when no key
    occurs twice in the dicts taken together. *)
Theorem _dicts_have_unique_keys_iff_no_repeat (dics : list dict) :
  _dicts_have_unique_keys dics = true <-> NoDup (concat (map keys dics)).
Proof. apply _dicts_have_unique_keys_NoDup. Qed.

Lemma _dicts_have_unique_keys_iff_no_repeat_witness :
  _dicts_have_unique_keys [[("a", VInt 1)]; [("b", VInt 2); ("c", VInt 0)]] = true.
Proof.
  apply (proj2 (_dicts_have_unique_keys_iff_no_repeat
                  [[("a", VInt 1)]; [("b", VInt 2); ("c", VInt 0)]])).
  cbn. repeat constructor; cbn; intuition discriminate.
Defined.

Lemma keys_dict_set {A} (d : list (string * A)) (k : string) (v : A) :
  keys (dict_set d k v) = if in_dec string_dec k (keys d) then keys d
                          else keys d ++ [k].
Proof.
  induction d as [|[k' v'] d IH]; simpl.
  - reflexivity.
  - destruct (String.eqb_spec k' k) as [->|Hne]; simpl.
    + destruct (string_dec k k); [reflexivity | contradiction].
    + rewrite IH. destruct (string_dec k' k); [contradiction|].
      destruct (in_dec string_dec k (keys d)); reflexivity.
Qed.

Lemma dict_set_NoDup {A} (d : list (string * A)) (k : string) (v : A) :
  NoDup (keys d) -> NoDup (keys (dict_set d k v)).
Proof.
  intros H. rewrite keys_dict_set.
  destruct (in_dec string_dec k (keys d)) as [Hin|Hin]; [exact H|].
  apply NoDup_app; [exact H | repeat constructor; intros [] |].
  intros x Hx [<-|[]]. contradiction.
Qed.

Lemma fold_dict_set_NoDup {A} (items acc : list (string * A)) :
  NoDup (keys acc) ->
  NoDup (keys (fold_left (fun d kv => dict_set d (fst kv) (snd kv)) items acc)).
Proof.
  revert acc. induction items as [|kv items IH]; intros acc H; simpl.
  - exact H.
  - apply IH, dict_set_NoDup, H.
Qed.

Lemma dict_get_snoc {A} (d : list (string * A)) (k0 k : string) (v0 : A) :
  dict_get (d ++ [(k0, v0)]) k
  = match dict_get d k with
    | Some v => Some v
    | None => if String.eqb k0 k then Some v0 else None
    end.
Proof.
  induction d as [|[k' v'] d IH]; simpl; [reflexivity|].
  destruct (String.eqb k' k); [reflexivity | exact IH].
Qed.

Lemma fold_dict_set_get {A} (items acc : list (string * A)) (k : string) :
  dict_get (fold_left (fun d kv => dict_set d (fst kv) (snd kv)) items acc) k
  = match dict_get (rev items) k with
    | Some v => Some v
    | None => dict_get acc k
    end.
Proof.
  revert acc. induction items as [|[k0 v0] items IH]; intros acc; simpl.
  - reflexivity.
  - rewrite IH, dict_get_snoc.
    destruct (dict_get (rev items) k); [reflexivity|].
    destruct (String.eqb_spec k0 k) as [->|Hne].
    + apply dict_get_set_same.
    + now apply dict_get_set_other.
Qed.

(** X6: the dict made by [_merge_dicts] has no key twice, whatever the
    dicts given, and a key is looked up in it as in the items of all
    the dicts read from the last to the first: the last dict that has
    the key gives its value. *)
Theorem _merge_dicts_last_wins (dics : list dict) :
  NoDup (keys (_merge_dicts dics))
  /\ forall k, dict_get (_merge_dicts dics) k = dict_get (rev (concat dics)) k.
Proof.
  unfold _merge_dicts, dict_of_items. split.
  - apply fold_dict_set_NoDup. constructor.
  - intros k. rewrite fold_dict_set_get.
    destruct (dict_get (rev (concat dics)) k); reflexivity.
Qed.

(** ** Tag options *)

Definition tag_from (o : options) (ntype : string) : string :=
  match dict_get (opt_tags o) ntype with
  | Some t => t
  | None => default_tag ntype
  end.

(** X7: [_complement_tag_options] leaves options that give all of
    attrs, text and children as they are; otherwise it sets each of the
    three from the [tags] dict if that has it and from the default if
    not, one by one, dropping what was given directly. In both cases
    the result gives all three, the other options are kept, and
    complementing again changes nothing. *)
Theorem _complement_tag_options_resolves (o : options) :
  match opt_attrs o, opt_text o, opt_children o with
  | Some _, Some _, Some _ => _complement_tag_options o = o
  | _, _, _ =>
      opt_attrs (_complement_tag_options o) = Some (tag_from o "attrs")
      /\ opt_text (_complement_tag_options o) = Some (tag_from o "text")
      /\ opt_children (_complement_tag_options o) = Some (tag_from o "children")
  end
  /\ opt_attrs (_complement_tag_options o)
     = Some (attrs_key (_complement_tag_options o))
  /\ opt_text (_complement_tag_options o)
     = Some (text_key (_complement_tag_options o))
  /\ opt_children (_complement_tag_options o)
     = Some (children_key (_complement_tag_options o))
  /\ opt_nspaces (_complement_tag_options o) = opt_nspaces o
  /\ opt_tags (_complement_tag_options o) = opt_tags o
  /\ opt_merge_attrs (_complement_tag_options o) = opt_merge_attrs o
  /\ opt_ac_parse_value (_complement_tag_options o) = opt_ac_parse_value o
  /\ _complement_tag_options (_complement_tag_options o)
     = _complement_tag_options o.
Proof.
  destruct o as [ns tg [a|] [t|] [c|] m p]; cbn; repeat split; reflexivity.
Qed.

(** ** Namespace rewriting *)

(** X8: a tag [{uri}local] whose URI the namespace map declares with a
    non-empty prefix is rewritten to [prefix:local]. *)
Theorem _tweak_ns_declared_prefix (uri loc prefix : string)
    (ns : list (string * string)) :
  uri <> "" -> loc <> "" ->
  no_space uri = true -> no_space loc = true -> no_rbrace loc = true ->
  dict_get ns uri = Some prefix -> prefix <> "" ->
  _tweak_ns ("{" ++ uri ++ "}" ++ loc)%string (Some ns)
  = (prefix ++ ":" ++ loc)%string.
Proof.
  intros Hu Hl Hsu Hsl Hbl Hget Hp. unfold _tweak_ns.
  destruct ns as [|up ns]; [discriminate Hget|].
  rewrite (_ET_NS_RE_match_qualified uri loc Hu Hl Hsu Hsl Hbl), Hget.
  apply String.eqb_neq in Hp. now rewrite Hp.
Qed.

Lemma _tweak_ns_declared_prefix_witness :
  "http://example.com/ns/val/" <> "" /\ "a" <> ""
  /\ no_space "http://example.com/ns/val/" = true /\ no_space "a" = true
  /\ no_rbrace "a" = true
  /\ dict_get [("http://example.com/ns/val/", "val")] "http://example.com/ns/val/"
     = Some "val"
  /\ "val" <> ""
  /\ _tweak_ns ("{" ++ "http://example.com/ns/val/" ++ "}" ++ "a")%string
               (Some [("http://example.com/ns/val/", "val")])
     = ("val" ++ ":" ++ "a")%string.
Proof.
  do 2 (split; [discriminate|]). do 4 (split; [reflexivity|]).
  split; [discriminate|].
  apply (_tweak_ns_declared_prefix "http://example.com/ns/val/" "a" "val");
    try discriminate; reflexivity.
Defined.

Definition starts_with_lbrace (s : string) : bool :=
  match s with
  | String c _ => Ascii.eqb c lbrace
  | EmptyString => false
  end.

Lemma drop_final_newline_head (c : ascii) (l : list ascii) :
  drop_final_newline (c :: l) = []
  \/ exists l', drop_final_newline (c :: l) = c :: l'.
Proof.
  destruct l as [|c' l]; simpl.
  - destruct (Ascii.eqb c newline); [now left | right; now exists []].
  - right. eexists; reflexivity.
Qed.

(** X9: a tag that does not start with an opening brace is returned as
    it is, whatever the namespace map. *)
Theorem _tweak_ns_unqualified_tag (tg : string)
    (nspaces : option (list (string * string))) :
  starts_with_lbrace tg = false -> _tweak_ns tg nspaces = tg.
Proof.
  intros H. unfold _tweak_ns.
  destruct nspaces as [[|up ns]|]; try reflexivity.
  unfold _ET_NS_RE_match.
  destruct tg as [|c tg']; [reflexivity|].
  cbn [starts_with_lbrace] in H. cbn [list_ascii_of_string].
  destruct (drop_final_newline_head c (list_ascii_of_string tg')) as [->|[l' ->]].
  - reflexivity.
  - now rewrite H.
Qed.

Lemma _tweak_ns_unqualified_tag_witness :
  starts_with_lbrace "a" = false
  /\ _tweak_ns "a" (Some [("http://example.com/ns/val/", "val")]) = "a".
Proof.
  split; [reflexivity|].
  apply (_tweak_ns_unqualified_tag "a"). reflexivity.
Defined.

(** ** Element to container *)

Lemma mapM_ext {A B} (f g : A -> result B) (l : list A) :
  Forall (fun x => f x = g x) l -> mapM f l = mapM g l.
Proof.
  induction 1 as [|x l Hx _ IH]; simpl; [reflexivity|].
  now rewrite Hx, IH.
Qed.

(** X14: with ac_parse_value off the value parser is not consulted:
    the conversion gives the same outcome whatever parser it is given. *)
Theorem elem_to_container_ignores_parser_when_off
    (parse1 parse2 : value -> value) (o : options) (e : Element) :
  opt_ac_parse_value o = false ->
  elem_to_container parse1 o e = elem_to_container parse2 o e.
Proof.
  revert o. induction e as [tg a tx cs IH] using Element_induction.
  intros o Hoff.
  rewrite !elem_to_container_eq. cbv zeta.
  cbn [tag attrib text children].
  assert (Htext : forall elem dic subdic,
             _process_elem_text parse1 elem dic subdic o
             = _process_elem_text parse2 elem dic subdic o).
  { intros. unfold _process_elem_text, _parse_text.
    rewrite Hoff. destruct (str_strip (text elem)); cbn [bind]; [reflexivity|].
    now rewrite !andb_false_r. }
  assert (Hattrs : forall elem dic subdic,
             _process_elem_attrs parse1 elem dic subdic o
             = _process_elem_attrs parse2 elem dic subdic o).
  { intros. unfold _process_elem_attrs, _parse_attrs. now rewrite Hoff. }
  rewrite Htext.
  destruct (if truthy tx then _ else _) as [ex|[[elem1 dic] subdic]];
    cbn [bind]; [reflexivity|].
  rewrite Hattrs.
  destruct (if nonempty (attrib elem1) then _ else _) as [dic2 sub2].
  destruct (nonempty (children elem1)); [|reflexivity].
  rewrite (mapM_ext (elem_to_container parse1 (without_children o))
                    (elem_to_container parse2 (without_children o)) cs);
    [reflexivity|].
  rewrite Forall_forall in IH |- *. intros c Hc. now apply IH.
Qed.

Lemma elem_to_container_ignores_parser_when_off_witness :
  opt_ac_parse_value no_options = false
  /\ elem_to_container (fun _ => VNone) no_options doc_attr_and_child
     = elem_to_container parse_unused no_options doc_attr_and_child.
Proof.
  split; [reflexivity|].
  apply (elem_to_container_ignores_parser_when_off
           (fun _ => VNone) parse_unused no_options doc_attr_and_child).
  reflexivity.
Defined.

Section Converting.

Variable parse_single : value -> value.

(** X12: an element without attributes and without children (text None
    or a str, tag not changed by the namespace map) maps its tag
    directly to its stripped text, parsed if ac_parse_value is on, and
    to None when the text is None, empty or white space only. *)
Theorem leaf_element_value (o : options) (e : Element) :
  is_text (text e) = true ->
  attrib e = [] -> children e = [] ->
  _tweak_ns (tag e) (opt_nspaces o) = tag e ->
  elem_to_container parse_single o e
  = Return (strip_texts e,
            [(tag e,
              if truthy (stripped (text e))
              then _parse_text parse_single (stripped (text e)) o
              else VNone)]).
Proof.
  destruct e as [tg a tx cs]. cbn [tag attrib text children].
  intros Htx -> -> Htw.
  rewrite elem_to_container_level by (cbn [children text]; auto).
  unfold level. cbn [tag attrib text children strip_texts map nonempty].
  rewrite Htw.
  destruct (truthy (stripped tx));
    cbn [orb negb andb dict_set resolve map fst snd];
    rewrite String.eqb_refl; reflexivity.
Qed.

(** X13: the container of an element (texts None or str) has one entry
    or two. The first is under the tag as rewritten by the namespace
    map. A second entry can only be there when the rewriting changed
    the tag: it is under the tag as it was, the first then holding the
    element's sub-dict. *)
Theorem elem_to_container_entries (o : options) (e : Element) :
  str_texts e = true ->
  exists d,
    elem_to_container parse_single o e = Return (strip_texts e, d)
    /\ ((exists v, d = [(_tweak_ns (tag e) (opt_nspaces o), v)])
        \/ (_tweak_ns (tag e) (opt_nspaces o) <> tag e
            /\ exists sub v,
                 d = [(_tweak_ns (tag e) (opt_nspaces o), VDict sub);
                      (tag e, v)])).
Proof.
  intros Hs. rewrite (elem_to_container_returns parse_single o e Hs).
  eexists. split; [reflexivity|].
  destruct (String.eqb_spec (_tweak_ns (tag e) (opt_nspaces o)) (tag e))
    as [Heq|Hne].
  - left. rewrite Heq. apply level_single, Heq.
  - apply String.eqb_neq in Hne. destruct e as [tg a tx cs].
    unfold level, _process_elem_attrs, _process_children_elems.
    cbn [tag attrib text children strip_texts] in *.
    destruct cs as [|c cs'], a as [|kv a'];
      repeat (cbn [dict_set resolve map fst snd negb andb orb nonempty];
              rewrite ?Hne;
              try (left; eexists; reflexivity);
              try (right; split;
                   [now apply String.eqb_neq | do 2 eexists; reflexivity]);
              match goal with
              | |- context [if ?b then _ else _] => destruct b
              end).
Qed.

End Converting.

Lemma leaf_element_value_witness :
  is_text (text (leaf "a" (VStr " x "))) = true
  /\ attrib (leaf "a" (VStr " x ")) = []
  /\ children (leaf "a" (VStr " x ")) = []
  /\ _tweak_ns (tag (leaf "a" (VStr " x "))) (opt_nspaces no_options) = "a"
  /\ elem_to_container parse_unused no_options (leaf "a" (VStr " x "))
     = Return (leaf "a" (VStr "x"), [("a", VStr "x")]).
Proof.
  do 4 (split; [reflexivity|]).
  apply (leaf_element_value parse_unused no_options (leaf "a" (VStr " x ")));
    reflexivity.
Defined.

Lemma elem_to_container_entries_witness :
  str_texts doc_attr_and_child = true
  /\ exists d,
       elem_to_container parse_unused no_options doc_attr_and_child
       = Return (strip_texts doc_attr_and_child, d).
Proof.
  split; [reflexivity|].
  destruct (elem_to_container_entries parse_unused no_options doc_attr_and_child)
    as [d [Hd _]]; [reflexivity|].
  exists d. exact Hd.
Defined.

(** ** When the conversion raises, and what a second run does *)

(** A text the text step fails on: true, yet not a str. *)
Definition bad_text (v : value) : bool := truthy v && negb (is_text v).

Fixpoint has_bad_text (e : Element) : bool :=
  bad_text (text e) || existsb has_bad_text (children e).

Definition no_lead (s : string) : bool :=
  match s with
  | String c _ => negb (isspace c)
  | EmptyString => true
  end.

Lemma lstrip_no_lead (s : string) : no_lead (lstrip s) = true.
Proof.
  induction s as [|c s IH]; simpl; [reflexivity|].
  destruct (isspace c) eqn:E; [exact IH | simpl; now rewrite E].
Qed.

Lemma lstrip_fixed (s : string) : no_lead s = true -> lstrip s = s.
Proof.
  destruct s as [|c s]; simpl; [reflexivity|].
  intros H. apply negb_true_iff in H. now rewrite H.
Qed.

Lemma rstrip_no_lead (s : string) : no_lead s = true -> no_lead (rstrip s) = true.
Proof.
  destruct s as [|c s]; simpl; [reflexivity|].
  intros H. destruct (rstrip s); [|exact H].
  apply negb_true_iff in H. rewrite H. simpl. now rewrite H.
Qed.

Lemma rstrip_idempotent (s : string) : rstrip (rstrip s) = rstrip s.
Proof.
  induction s as [|c s IH]; simpl; [reflexivity|].
  destruct (rstrip s) as [|c' r] eqn:E.
  - destruct (isspace c) eqn:Ec; simpl; [reflexivity | now rewrite Ec].
  - change (rstrip (String c (String c' r))) with
      (match rstrip (String c' r) with
       | EmptyString => if isspace c then EmptyString else String c EmptyString
       | r0 => String c r0
       end).
    now rewrite IH.
Qed.

Lemma strip_idempotent (s : string) : strip (strip s) = strip s.
Proof.
  unfold strip.
  rewrite (lstrip_fixed (rstrip (lstrip s))).
  - apply rstrip_idempotent.
  - apply rstrip_no_lead, lstrip_no_lead.
Qed.

Lemma stripped_idempotent (v : value) : stripped (stripped v) = stripped v.
Proof. destruct v; simpl; try reflexivity. now rewrite strip_idempotent. Qed.

Lemma strip_texts_idempotent (e : Element) :
  strip_texts (strip_texts e) = strip_texts e.
Proof.
  induction e as [tg a tx cs IH] using Element_induction.
  cbn [strip_texts tag attrib text children].
  rewrite stripped_idempotent, map_map. f_equal.
  apply map_ext_Forall. exact IH.
Qed.

Lemma bad_text_stripped (v : value) : bad_text (stripped v) = bad_text v.
Proof.
  destruct v; try reflexivity.
  unfold bad_text. cbn [stripped is_text negb]. now rewrite !andb_false_r.
Qed.

Lemma has_bad_text_strip_texts (e : Element) :
  has_bad_text (strip_texts e) = has_bad_text e.
Proof.
  induction e as [tg a tx cs IH] using Element_induction.
  cbn [has_bad_text strip_texts tag attrib text children].
  rewrite bad_text_stripped. f_equal.
  induction IH as [|c cs Hc _ IHcs]; simpl; [reflexivity|].
  now rewrite Hc, IHcs.
Qed.

Section Rerunning.

Variable parse_single : value -> value.

Lemma text_step_ok (o : options) (elem : Element)
    (dic : list (string * slot)) (subdic : dict) :
  bad_text (text elem) = false ->
  (if truthy (text elem)
   then _process_elem_text parse_single elem dic subdic o
   else Return (elem, dic, subdic))
  = let elem1 := set_text elem (stripped (text elem)) in
    Return
      (if truthy (text elem1) then
         if nonempty (children elem) || nonempty (attrib elem) then
           (elem1, dic, dict_set subdic (text_key o)
                                 (_parse_text parse_single (text elem1) o))
         else
           (elem1, dict_set dic (tag elem)
                            (Obj (_parse_text parse_single (text elem1) o)),
            subdic)
       else (elem1, dic, subdic)).
Proof.
  intros Hb. destruct (is_text (text elem)) eqn:Htx.
  - now apply text_step_str.
  - unfold bad_text in Hb. rewrite Htx, andb_true_r in Hb.
    destruct elem as [tg a tx cs]. cbn [text] in *.
    rewrite Hb. destruct tx; try discriminate Htx; cbn in *; now rewrite Hb.
Qed.

Lemma elem_to_container_level_ok (o : options) (e : Element) :
  Forall (fun c => exists d,
            elem_to_container parse_single (without_children o) c
            = Return (strip_texts c, d))
         (children e) ->
  bad_text (text e) = false ->
  elem_to_container parse_single o e
  = Return (strip_texts e,
            level parse_single o e
                  (map (to_dict parse_single (without_children o)) (children e))).
Proof.
  destruct e as [tg a tx cs]. cbn [text children]. intros Hall Htx.
  rewrite elem_to_container_eq. cbv zeta.
  rewrite (text_step_ok o (mkElement tg a tx cs) _ _ Htx).
  cbn [tag attrib text children set_text strip_texts].
  rewrite (mapM_children parse_single (without_children o) cs Hall).
  unfold level, _process_elem_attrs, _process_children_elems, _parse_attrs.
  cbn [tag attrib text children set_text strip_texts].
  destruct cs as [|c cs'], a as [|kv a'];
    destruct (truthy (stripped tx)) eqn:Ht;
    unfold set_text, set_children;
    cbn [bind Return tag attrib text children negb andb orb nonempty map fst snd];
    rewrite ?Ht, ?map_fst_pair, ?map_snd_pair;
    cbn [negb andb fst snd map];
    repeat (try reflexivity;
            match goal with
            | |- context [if ?b then _ else _] => destruct b
            end).
Qed.

Lemma mapM_raises (o : options) (cs : list Element) :
  Forall (fun c =>
            elem_to_container parse_single o c
            = if has_bad_text c then Raise AttributeError
              else Return (strip_texts c,
                           level parse_single o c
                                 (map (to_dict parse_single (without_children o))
                                      (children c)))) cs ->
  existsb has_bad_text cs = true ->
  mapM (elem_to_container parse_single o) cs = Raise AttributeError.
Proof.
  induction 1 as [|c cs Hc _ IH]; simpl; [discriminate|].
  intros Hex. rewrite Hc. destruct (has_bad_text c); [reflexivity|].
  simpl in Hex. now rewrite (IH Hex).
Qed.

Lemma elem_to_container_outcome (o : options) (e : Element) :
  elem_to_container parse_single o e
  = if has_bad_text e then Raise AttributeError
    else Return (strip_texts e,
                 level parse_single o e
                       (map (to_dict parse_single (without_children o))
                            (children e))).
Proof.
  revert o. induction e as [tg a tx cs IH] using Element_induction.
  intros o.
  assert (IHo : Forall (fun c =>
            elem_to_container parse_single (without_children o) c
            = if has_bad_text c then Raise AttributeError
              else Return (strip_texts c,
                           level parse_single (without_children o) c
                                 (map (to_dict parse_single
                                         (without_children (without_children o)))
                                      (children c)))) cs).
  { rewrite Forall_forall in IH |- *. intros c Hc. apply IH, Hc. }
  clear IH. rename IHo into IH.
  cbn [has_bad_text text children].
  destruct (bad_text tx) eqn:Hb; cbn [orb].
  - rewrite elem_to_container_eq.
    unfold bad_text in Hb. apply andb_prop in Hb. destruct Hb as [Ht Hn].
    cbv zeta. cbn [text]. rewrite Ht.
    destruct tx; try discriminate Hn; reflexivity.
  - destruct (existsb has_bad_text cs) eqn:Hex.
    + pose proof (mapM_raises (without_children o) cs IH Hex) as Hm.
      rewrite elem_to_container_eq. cbv zeta.
      rewrite (text_step_ok o (mkElement tg a tx cs) _ _ Hb).
      cbn [tag attrib text children set_text].
      rewrite Hm.
      unfold _process_elem_attrs.
      destruct cs as [|c cs']; [discriminate Hex|].
      destruct a as [|kv a'];
        destruct (truthy (stripped tx)) eqn:Ht;
        unfold set_text;
        cbn [bind Return tag attrib text children negb andb orb nonempty];
        rewrite ?Ht; cbn [negb andb];
        repeat (try reflexivity;
                match goal with
                | |- context [if ?b then _ else _] => destruct b
                end).
    + apply elem_to_container_level_ok; [|exact Hb].
      cbn [children].
      rewrite Forall_forall in IH |- *. intros c Hc.
      assert (Hc' : has_bad_text c = false).
      { destruct (has_bad_text c) eqn:E; [|reflexivity].
        assert (existsb has_bad_text cs = true)
          by (apply existsb_exists; exists c; auto).
        congruence. }
      specialize (IH c Hc). rewrite Hc' in IH. eexists. exact IH.
Qed.

(** X10: the one way [elem_to_container] fails. It raises
    AttributeError (from [elem.text.strip()]) exactly when some element
    of the tree has a text that is true and not a str; otherwise it
    returns, with the tree's texts stripped. *)
Theorem elem_to_container_raises_iff_bad_text (o : options) (e : Element) :
  elem_to_container parse_single o e
  = if has_bad_text e then Raise AttributeError
    else Return (strip_texts e, to_dict parse_single o e).
Proof.
  pose proof (elem_to_container_outcome o e) as H.
  unfold to_dict. rewrite H. destruct (has_bad_text e); reflexivity.
Qed.

Lemma level_strip_texts (o : options) (e : Element) (cdics : list dict) :
  level parse_single o (strip_texts e) cdics = level parse_single o e cdics.
Proof.
  unfold level, _process_elem_attrs, _process_children_elems, _parse_attrs.
  rewrite strip_texts_idempotent.
  destruct e as [tg a tx cs].
  cbn [strip_texts tag attrib text children].
  destruct cs; reflexivity.
Qed.

Lemma elem_to_container_rerun (o : options) (e : Element) :
  has_bad_text e = false ->
  elem_to_container parse_single o (strip_texts e)
  = Return (strip_texts e,
            level parse_single o e
                  (map (to_dict parse_single (without_children o)) (children e))).
Proof.
  revert o. induction e as [tg a tx cs IH] using Element_induction.
  intros o Hb.
  rewrite elem_to_container_outcome, has_bad_text_strip_texts, Hb.
  rewrite strip_texts_idempotent, level_strip_texts.
  do 2 f_equal.
  cbn [strip_texts children]. rewrite map_map.
  cbn [has_bad_text text children] in Hb.
  apply orb_false_elim in Hb. destruct Hb as [_ Hcs].
  f_equal. apply map_ext_Forall.
  rewrite Forall_forall in IH |- *. intros c Hc.
  assert (Hc' : has_bad_text c = false).
  { destruct (has_bad_text c) eqn:E; [|reflexivity].
    assert (existsb has_bad_text cs = true)
      by (apply existsb_exists; exists c; auto).
    congruence. }
  unfold to_dict.
  rewrite (IH c Hc (without_children o) Hc'), elem_to_container_outcome, Hc'.
  reflexivity.
Qed.

(** X11: a second run changes nothing. If a conversion returned, then
    converting the tree as that run left it returns the same container
    and leaves the tree as it is. *)
Theorem elem_to_container_second_run (o : options) (e e' : Element) (d : dict) :
  elem_to_container parse_single o e = Return (e', d) ->
  elem_to_container parse_single o e' = Return (e', d).
Proof.
  rewrite elem_to_container_outcome.
  destruct (has_bad_text e) eqn:Hb; [discriminate|].
  intros H. injection H as <- <-.
  now apply elem_to_container_rerun.
Qed.

End Rerunning.

Lemma elem_to_container_second_run_witness :
  elem_to_container parse_unused no_options (leaf "a" (VStr " x "))
  = Return (leaf "a" (VStr "x"), [("a", VStr "x")])
  /\ elem_to_container parse_unused no_options (leaf "a" (VStr "x"))
     = Return (leaf "a" (VStr "x"), [("a", VStr "x")]).
Proof.
  split; [reflexivity|].
  apply (elem_to_container_second_run parse_unused no_options
           (leaf "a" (VStr " x "))).
  reflexivity.
Defined.

(** ** Dump, then load *)

Definition is_marker (o : options) (k : string) : bool :=
  String.eqb k (attrs_key o) || String.eqb k (text_key o)
  || String.eqb k (children_key o).

Fixpoint no_repeat (l : list string) : bool :=
  match l with
  | [] => true
  | x :: l' => negb (existsb (String.eqb x) l') && no_repeat l'
  end.

(** A plain container: None, a non-empty str without white space
    around it, or a non-empty dict of plain containers whose keys are
    distinct and are not markers. *)
Fixpoint plain (o : options) (v : value) : bool :=
  match v with
  | VNone => true
  | VStr s => negb (String.eqb s "") && String.eqb (strip s) s
  | VDict d =>
      nonempty d && no_repeat (keys d)
      && forallb (fun kv => negb (is_marker o (fst kv)) && plain o (snd kv)) d
  | VBool _ | VInt _ | VList _ => false
  end.

(** The element a plain container under a tag stands for. *)
Fixpoint element_of (tg : string) (v : value) : Element :=
  match v with
  | VStr s => mkElement tg [] (VStr s) []
  | VDict d =>
      mkElement tg [] VNone (map (fun kv => element_of (fst kv) (snd kv)) d)
  | _ => new_Element tg
  end.

Lemma value_induction (P : value -> Prop) :
  P VNone -> (forall b, P (VBool b)) -> (forall n, P (VInt n)) ->
  (forall s, P (VStr s)) ->
  (forall l, Forall P l -> P (VList l)) ->
  (forall d, Forall (fun kv => P (snd kv)) d -> P (VDict d)) ->
  forall v, P v.
Proof.
  intros HN HB HI HS HL HD. fix IH 1. intros [| b | n | s | l | d].
  - exact HN.
  - apply HB.
  - apply HI.
  - apply HS.
  - apply HL. induction l as [|x l IHl]; constructor; [apply IH | exact IHl].
  - apply HD. induction d as [|[k x] d IHd]; constructor; [apply IH | exact IHd].
Qed.

Lemma no_repeat_NoDup (l : list string) : no_repeat l = true -> NoDup l.
Proof.
  induction l as [|x l IH]; simpl; intros H; constructor.
  - apply andb_prop in H. destruct H as [H _]. apply negb_true_iff in H.
    intros Hin.
    assert (existsb (String.eqb x) l = true)
      by (apply existsb_exists; exists x; split; [exact Hin | apply String.eqb_refl]).
    congruence.
  - apply IH. apply andb_prop in H. tauto.
Qed.

Lemma concat_singletons {A} (l : list A) : concat (map (fun x => [x]) l) = l.
Proof. induction l as [|x l IH]; simpl; [reflexivity | now rewrite IH]. Qed.

Section DumpThenLoad.

Variable parse_single : value -> value.
Variable py_str : value -> string.

(** The loop of [container_to_etree] over the items of a dict. *)
Definition dump_loop (_str : value -> value) (o : options)
    (fill : value -> Element -> result Element)
    : dict -> option Element -> result (option Element) :=
  fix loop (items : dict) (parent : option Element) : result (option Element) :=
    match items with
    | [] => Return parent
    | (key, val) :: items' =>
        parent <-
          (if String.eqb key (attrs_key o) then
             avals <- iteritems val ;;
             reduce (fun p kv =>
                       on_parent p
                         (fun e => Element_set e (fst kv) (_str (snd kv))))
                    avals parent
           else if String.eqb key (text_key o) then
             on_parent parent (fun e => set_text e (_str val))
           else if String.eqb key (children_key o) then
             _elem_from_descendants fill val
               (fun p celem => on_parent p (fun e => Element_append e celem))
               parent
           else
             _get_or_update_parent fill key val parent) ;;
        loop items' parent
    end.

Definition fill_with (o : options) (val : value) (elem : Element)
    : result Element :=
  '(_, p) <- container_to_etree py_str val (Some elem) o ;;
  Return (match p with Some e => e | None => elem end).

Lemma container_to_etree_dict (items : dict) (parent : option Element)
    (o : options) :
  container_to_etree py_str (VDict items) parent o
  = (parent <-
       dump_loop
         (if opt_ac_parse_value o then (fun v => VStr (py_str v)) else noop)
         (_complement_tag_options o)
         (fill_with (_complement_tag_options o)) items parent ;;
     Return (Some (mkElementTree parent), parent)).
Proof. reflexivity. Qed.

Lemma dump_loop_plain_key (_str : value -> value) (o : options)
    (k : string) (v : value) (items : dict) (parent : option Element) :
  is_marker o k = false ->
  dump_loop _str o (fill_with o) ((k, v) :: items) parent
  = (parent' <- _get_or_update_parent (fill_with o) k v parent ;;
     dump_loop _str o (fill_with o) items parent').
Proof.
  intros Hm. unfold is_marker in Hm.
  apply orb_false_elim in Hm. destruct Hm as [Hm Hc].
  apply orb_false_elim in Hm. destruct Hm as [Ha Ht].
  cbn [dump_loop]. now rewrite Ha, Ht, Hc.
Qed.

Lemma dump_loop_plain (_str : value -> value) (o : options) (items : dict) :
  Forall (fun kv =>
            is_marker o (fst kv) = false
            /\ is_iterable (snd kv) = false
            /\ forall tg, fill_with o (snd kv) (new_Element tg)
                          = Return (element_of tg (snd kv))) items ->
  forall p,
    dump_loop _str o (fill_with o) items (Some p)
    = Return (Some (set_children p
                      (children p
                       ++ map (fun kv => element_of (fst kv) (snd kv)) items))).
Proof.
  induction 1 as [|[k v] items [Hm [Hi Hf]] _ IH]; intros p.
  - cbn. rewrite app_nil_r. destruct p; reflexivity.
  - cbn [dump_loop fst snd] in *.
    unfold is_marker in Hm. apply orb_false_elim in Hm. destruct Hm as [Hm Hc].
    apply orb_false_elim in Hm. destruct Hm as [Ha Ht].
    rewrite Ha, Ht, Hc. unfold _get_or_update_parent.
    rewrite Hi, Hf. cbn [bind Return].
    change (dump_loop _str o (fill_with o) items
              (Some (Element_append p (element_of k v)))
            = Return (Some (set_children p
                (children p ++ map (fun kv => element_of (fst kv) (snd kv))
                                   ((k, v) :: items))))).
    rewrite IH. destruct p as [tg a tx cs].
    unfold Element_append, set_children.
    cbn [tag attrib text children map fst snd].
    now rewrite <- app_assoc.
Qed.

Lemma plain_not_iterable (o : options) (v : value) :
  plain o v = true -> is_iterable v = false.
Proof. destruct v; simpl; intros H; try reflexivity; discriminate H. Qed.

Lemma plain_items (o : options) (d : dict) :
  plain o (VDict d) = true ->
  d <> [] /\ NoDup (keys d)
  /\ Forall (fun kv => is_marker o (fst kv) = false /\ plain o (snd kv) = true) d.
Proof.
  cbn [plain]. intros H.
  apply andb_prop in H. destruct H as [H Hall].
  apply andb_prop in H. destruct H as [Hne Hnd].
  split; [destruct d; [discriminate Hne | discriminate]|].
  split; [now apply no_repeat_NoDup|].
  rewrite forallb_forall in Hall. rewrite Forall_forall. intros kv Hin.
  specialize (Hall kv Hin). apply andb_prop in Hall.
  destruct Hall as [Hm Hp]. apply negb_true_iff in Hm. tauto.
Qed.

Lemma dump_plain (o : options) :
  opt_ac_parse_value o = false ->
  _complement_tag_options o = o ->
  forall v, plain o v = true ->
  forall tg, fill_with o v (new_Element tg) = Return (element_of tg v).
Proof.
  intros Hoff Hc v.
  induction v as [| b | n | s | l IH | d IH] using value_induction;
    intros Hp tg; try discriminate Hp.
  - unfold fill_with. cbn. reflexivity.
  - unfold fill_with. cbn [plain] in Hp. apply andb_prop in Hp.
    destruct Hp as [Hs _]. cbn. rewrite Hoff. unfold noop. cbn. rewrite Hs.
    reflexivity.
  - destruct (plain_items o d Hp) as [Hne [Hnd Hall]].
    unfold fill_with. rewrite container_to_etree_dict, Hc.
    rewrite dump_loop_plain.
    + reflexivity.
    + rewrite Forall_forall in *. intros kv Hin.
      destruct (Hall kv Hin) as [Hm Hpl].
      split; [exact Hm|]. split; [now apply plain_not_iterable with o|].
      now apply IH.
Qed.

Lemma strip_texts_element_of (o : options) (v : value) :
  plain o v = true -> forall tg, strip_texts (element_of tg v) = element_of tg v.
Proof.
  induction v as [| b | n | s | l IH | d IH] using value_induction;
    intros Hp tg; try discriminate Hp.
  - reflexivity.
  - cbn [plain] in Hp. apply andb_prop in Hp. destruct Hp as [_ Hs].
    apply String.eqb_eq in Hs. cbn. now rewrite Hs.
  - destruct (plain_items o d Hp) as [_ [_ Hall]].
    cbn [element_of strip_texts tag attrib text children stripped].
    rewrite map_map. f_equal. apply map_ext_Forall.
    rewrite Forall_forall in *. intros kv Hin.
    apply IH; [exact Hin | apply (Hall kv Hin)].
Qed.

Lemma load_element_of (om : options) (v : value) :
  plain om v = true ->
  forall o tg,
    opt_ac_parse_value o = false -> opt_nspaces o = None ->
    elem_to_container parse_single o (element_of tg v)
    = Return (element_of tg v, [(tg, v)]).
Proof.
  induction v as [| b | n | s | l IH | d IH] using value_induction;
    intros Hp o tg Hoff Hns; try discriminate Hp.
  - rewrite elem_to_container_eq. cbn. rewrite Hns. cbn.
    now rewrite String.eqb_refl.
  - cbn [plain] in Hp. apply andb_prop in Hp. destruct Hp as [Hne Hs].
    apply String.eqb_eq in Hs. apply negb_true_iff in Hne.
    rewrite elem_to_container_eq. cbn. unfold _process_elem_text, _parse_text.
    cbn. rewrite Hs, Hne, Hns, Hoff. cbn. rewrite Hne. cbn.
    now rewrite String.eqb_refl.
  - destruct (plain_items om d Hp) as [Hne [Hnd Hall]].
    assert (Hkids : forall kv, In kv d ->
              elem_to_container parse_single (without_children o)
                (element_of (fst kv) (snd kv))
              = Return (element_of (fst kv) (snd kv), [kv])).
    { rewrite Forall_forall in *. intros [k x] Hin.
      apply (IH (k, x) Hin); [apply (Hall (k, x) Hin) | exact Hoff | exact Hns]. }
    rewrite elem_to_container_level.
    + rewrite (strip_texts_element_of om (VDict d) Hp).
      rewrite level_children.
      * cbn [element_of tag attrib text children].
        assert (Hcd : map (to_dict parse_single (without_children o))
                          (map (fun kv => element_of (fst kv) (snd kv)) d)
                      = map (fun kv => [kv]) d).
        { rewrite map_map. apply map_ext_in. intros kv Hin.
          unfold to_dict. now rewrite (Hkids kv Hin). }
        rewrite Hcd.
        assert (Hlead : leading_dict parse_single o
                          (mkElement tg [] VNone
                             (map (fun kv => element_of (fst kv) (snd kv)) d))
                        = []).
        { unfold leading_dict, markers. cbn. destruct (opt_merge_attrs o); reflexivity. }
        rewrite Hlead.
        assert (Hu : NoDup (concat (map keys ([] :: map (fun kv => [kv]) d)))).
        { cbn [map concat app]. rewrite <- keys_concat, concat_singletons.
          exact Hnd. }
        destruct (_dicts_have_unique_keys _) eqn:U.
        -- apply _dicts_have_unique_keys_NoDup in U.
           rewrite (_merge_dicts_NoDup _ U). cbn [concat app].
           now rewrite concat_singletons.
        -- exfalso. apply Bool.not_true_iff_false in U. apply U.
           apply _dicts_have_unique_keys_NoDup. exact Hu.
      * cbn [element_of children]. destruct d; [contradiction | discriminate].
      * cbn [element_of tag]. now rewrite Hns.
    + cbn [element_of children]. rewrite Forall_forall. intros c Hc.
      apply in_map_iff in Hc. destruct Hc as [kv [<- Hin]].
      exists [kv]. rewrite (Hkids kv Hin).
      rewrite Forall_forall in Hall.
      now rewrite (strip_texts_element_of om (snd kv) (proj2 (Hall kv Hin))).
    + reflexivity.
Qed.

(** X15: dump, then load, gives the container back. For a plain
    container [v] under a tag that is not a marker, with ac_parse_value
    off, [container_to_etree] of [{tag: v}] returns a tree around an
    element, and [root_to_container] of that element, with no namespace
    map, returns [{tag: v}] and leaves the element as it is. *)
Theorem dump_then_load_plain (o : options) (tg : string) (v : value) :
  opt_ac_parse_value o = false ->
  is_marker (_complement_tag_options o) tg = false ->
  plain (_complement_tag_options o) v = true ->
  exists e,
    container_to_etree py_str (VDict [(tg, v)]) None o
    = Return (Some (mkElementTree (Some e)), Some e)
    /\ root_to_container parse_single (Some e) None o = Return (Some e, [(tg, v)]).
Proof.
  intros Hoff Hm Hp. exists (element_of tg v).
  assert (Hoff' : opt_ac_parse_value (_complement_tag_options o) = false)
    by (destruct o as [ns tgs [a|] [t|] [c|] m p]; exact Hoff).
  assert (Hidem : _complement_tag_options (_complement_tag_options o)
                  = _complement_tag_options o)
    by (destruct o as [ns tgs [a|] [t|] [c|] m p]; reflexivity).
  split.
  - rewrite container_to_etree_dict. cbn [dump_loop].
    unfold is_marker in Hm. apply orb_false_elim in Hm. destruct Hm as [Hm Hc].
    apply orb_false_elim in Hm. destruct Hm as [Ha Ht].
    rewrite Ha, Ht, Hc. unfold _get_or_update_parent.
    rewrite (plain_not_iterable _ _ Hp).
    rewrite (dump_plain (_complement_tag_options o) Hoff' Hidem v Hp tg).
    reflexivity.
  - rewrite root_to_container_eq. cbn [xmlns_attrib].
    replace (mkElement (tag (element_of tg v)) (attrib (element_of tg v))
                       (text (element_of tg v)) (children (element_of tg v)))
      with (element_of tg v) by (destruct (element_of tg v); reflexivity).
    rewrite (load_element_of (_complement_tag_options o) v Hp
               (set_nspaces (_complement_tag_options o) None) tg
               Hoff' eq_refl).
    reflexivity.
Qed.

(** X16: a dict with several top-level keys does not give several
    roots. With ac_parse_value off, keys that are not markers and plain
    values, the element of the first key is the root, and the elements
    of the later keys are appended to its children, in order. *)
Theorem dump_later_keys_become_children (o : options) (k1 : string) (v1 : value)
    (rest : dict) :
  opt_ac_parse_value o = false ->
  Forall (fun kv => is_marker (_complement_tag_options o) (fst kv) = false
                    /\ plain (_complement_tag_options o) (snd kv) = true)
         ((k1, v1) :: rest) ->
  container_to_etree py_str (VDict ((k1, v1) :: rest)) None o
  = let root :=
      set_children (element_of k1 v1)
        (children (element_of k1 v1)
         ++ map (fun kv => element_of (fst kv) (snd kv)) rest) in
    Return (Some (mkElementTree (Some root)), Some root).
Proof.
  intros Hoff Hall.
  assert (Hoff' : opt_ac_parse_value (_complement_tag_options o) = false)
    by (destruct o as [ns tgs [a|] [t|] [c|] m p]; exact Hoff).
  assert (Hidem : _complement_tag_options (_complement_tag_options o)
                  = _complement_tag_options o)
    by (destruct o as [ns tgs [a|] [t|] [c|] m p]; reflexivity).
  inversion Hall as [|kv l [Hm Hp] Hrest]; subst. cbn [fst snd] in Hm, Hp.
  rewrite container_to_etree_dict, (dump_loop_plain_key _ _ _ _ _ _ Hm).
  unfold _get_or_update_parent.
  rewrite (plain_not_iterable _ _ Hp).
  rewrite (dump_plain (_complement_tag_options o) Hoff' Hidem v1 Hp k1).
  cbn [bind Return].
  rewrite dump_loop_plain.
  - reflexivity.
  - rewrite Forall_forall in *. intros kv Hin.
    destruct (Hrest kv Hin) as [Hm' Hp'].
    split; [exact Hm'|]. split; [now apply plain_not_iterable with (_complement_tag_options o)|].
    intros tg. now apply dump_plain.
Qed.

End DumpThenLoad.

Definition plain_example : value :=
  VDict [("b", VStr "1"); ("c", VDict [("d", VNone)])].

Lemma dump_then_load_plain_witness :
  opt_ac_parse_value no_options = false
  /\ is_marker (_complement_tag_options no_options) "a" = false
  /\ plain (_complement_tag_options no_options) plain_example = true
  /\ exists e,
       container_to_etree str_unused (VDict [("a", plain_example)]) None no_options
       = Return (Some (mkElementTree (Some e)), Some e)
       /\ root_to_container parse_unused (Some e) None no_options
          = Return (Some e, [("a", plain_example)]).
Proof.
  do 3 (split; [reflexivity|]).
  apply (dump_then_load_plain parse_unused str_unused no_options "a" plain_example);
    reflexivity.
Defined.

Lemma dump_later_keys_become_children_witness :
  opt_ac_parse_value no_options = false
  /\ Forall (fun kv => is_marker (_complement_tag_options no_options) (fst kv) = false
                       /\ plain (_complement_tag_options no_options) (snd kv) = true)
            [("a", VStr "1"); ("b", VStr "2")]
  /\ container_to_etree str_unused (VDict [("a", VStr "1"); ("b", VStr "2")])
       None no_options
     = Return (Some (mkElementTree
                       (Some (mkElement "a" [] (VStr "1") [leaf "b" (VStr "2")]))),
               Some (mkElement "a" [] (VStr "1") [leaf "b" (VStr "2")])).
Proof.
  split; [reflexivity|].
  assert (H : Forall (fun kv =>
                is_marker (_complement_tag_options no_options) (fst kv) = false
                /\ plain (_complement_tag_options no_options) (snd kv) = true)
              [("a", VStr "1"); ("b", VStr "2")])
    by (repeat constructor).
  split; [exact H|].
  apply (dump_later_keys_become_children str_unused no_options "a" (VStr "1")
           [("b", VStr "2")] eq_refl H).
Defined.

End XmlMore.

(* ================================================================== *)
(** * Load, dump, load                                                 *)
(* ================================================================== *)

Module RoundTrip.

Import XmlProps XmlMore.










Section LoadDumpLoad.

Variable parse_single : value -> value.
Variable py_str : value -> string.

(** ** Load *)








(** ** Dump *)








(** ** Load again *)






End LoadDumpLoad.








End RoundTrip.
